(** * An RDAP client: bootstrap registry model, client orchestrator and
      command-line handler

    Shallow embedding of

    - [src/handler/handler.go], second document (package [rdap]): the bootstrap
      service registry, [Service.UnmarshalJSON] and the [sort.Interface]
      instance of [Values];
    - [src/client/client.go] (package [client]): [Client.query],
      [Client.fetchAndUnmarshal], [kindToSegment] and the three public query
      operations, in both revisions the file holds;
    - [src/handler/handler.go], first document (package [handler]):
      [Handler.Query] and the five kind handlers.

    Go values are modelled as follows.  A [string] is a [string] (a byte
    sequence); a slice of strings is a [list string] read with stdpp's lookup
    [!!] and written with [<[i:=x]>], an out-of-range index being a run-time
    panic ([None] in the [option] monad, or the [Panic] outcome); an [error]
    result is an [option error] ([None] for [nil]); a function that touches
    the network threads an explicit world.  The Go standard library and the
    packages of the repository that are not part of the sources ([net/http],
    [encoding/json], [regexp], the [bootstrap], [client], [protocol] and
    [output] packages) are the fields of an environment record. *)

From Stdlib Require Import ZArith Lia Ascii String DecimalString.
From stdpp Require Import base option list strings.

Open Scope string_scope.
Open Scope list_scope.

(** ** Go's [strings] and [sort] packages, as far as the sources use them *)

Module GoLib.

(** [strings.Split(s, sep)] for a one-byte separator: the pieces of [s]
    between the occurrences of [sep]; never empty ([Split("", ":")] is
    [[""]]). *)
Fixpoint strings_Split (s : string) (sep : ascii) : list string :=
  match s with
  | EmptyString => [EmptyString]
  | String c s' =>
      if Ascii.eqb c sep then EmptyString :: strings_Split s' sep
      else match strings_Split s' sep with
           | [] => [String c EmptyString]
           | w :: ws => String c w :: ws
           end
  end.

(** [strconv.ParseUint(s, 10, bitSize)] for a [bitSize] from 1 to 64: the
    loop over the bytes of [s] with its three exits, on 64-bit unsigned
    arithmetic.  A byte that is no digit of the base is a syntax error; a
    value above [maxVal] is a range error, returned with [maxVal]. *)
Inductive NumError := ErrSyntax | ErrRange.

Definition maxUint64 : N := 18446744073709551615.

Definition wrap64 (n : N) : N := (n mod 18446744073709551616)%N.

(** The [switch] on a byte [c]: the digit it stands for, if any. *)
Definition digit (c : N) : option N :=
  let lower := N.lor c 32 in
  if (48 <=? c)%N && (c <=? 57)%N then Some (c - 48)%N
  else if (97 <=? lower)%N && (lower <=? 122)%N then Some (lower - 97 + 10)%N
  else None.

Fixpoint ParseUint_loop (base maxVal cutoff : N) (s : string) (n : N)
    : N * option NumError :=
  match s with
  | EmptyString => (n, None)
  | String c rest =>
      match digit (N_of_ascii c) with
      | None => (0%N, Some ErrSyntax)
      | Some d =>
          if (base <=? d)%N then (0%N, Some ErrSyntax)
          else if (cutoff <=? n)%N then (maxVal, Some ErrRange)
          else
            let n := wrap64 (n * base) in
            let n1 := wrap64 (n + d) in
            if (n1 <? n)%N || (maxVal <? n1)%N then (maxVal, Some ErrRange)
            else ParseUint_loop base maxVal cutoff rest n1
      end
  end.

Definition strconv_ParseUint (s : string) (bitSize : N) : N * option NumError :=
  if decide (s = EmptyString) then (0%N, Some ErrSyntax)
  else
    let cutoff := (maxUint64 / 10 + 1)%N in
    let maxVal := wrap64 (wrap64 (N.shiftl 1 bitSize) + maxUint64) in
    ParseUint_loop 10 maxVal cutoff s 0.

(** A decimal digit, a text of decimal digits, and the number a text of
    digits writes after the digits that gave [acc]. *)
Definition isDigit (c : ascii) : bool :=
  (48 <=? N_of_ascii c)%N && (N_of_ascii c <=? 57)%N.

Fixpoint allDigits (s : string) : bool :=
  match s with
  | EmptyString => true
  | String c rest => isDigit c && allDigits rest
  end.

Fixpoint decimalValue (acc : N) (s : string) : N :=
  match s with
  | EmptyString => acc
  | String c rest => decimalValue (acc * 10 + (N_of_ascii c - 48)) rest
  end.

(** The interface [sort.Interface]: [Len], [Less] and [Swap] over a
    collection; [Less] and [Swap] panic ([None]) as the instance does. *)
Class sort_Interface (T : Type) := {
  Len : T -> nat;
  Less : T -> nat -> nat -> option bool;
  Swap : T -> nat -> nat -> option T
}.

Section Sort.
Context {T : Type} `{sort_Interface T}.

(** The inner loop of [insertionSort]:
    [for j := i; j > a && data.Less(j, j-1); j-- { data.Swap(j, j-1) }]. *)
Fixpoint insertionSort_inner (data : T) (a j : nat) : option T :=
  match j with
  | 0 => Some data
  | S j' =>
      if decide (a < j) then
        lt ← Less data j j';
        if (lt : bool) then data' ← Swap data j j'; insertionSort_inner data' a j'
        else Some data
      else Some data
  end.

(** The outer loop [for i := a + 1; i < b; i++], by the number [n] of
    iterations left ([b - i]). *)
Fixpoint insertionSort_outer (n : nat) (data : T) (a i : nat) : option T :=
  match n with
  | 0 => Some data
  | S n' => data' ← insertionSort_inner data a i; insertionSort_outer n' data' a (S i)
  end.

(** [insertionSort(data, a, b)] of Go's [sort] package. *)
Definition insertionSort (data : T) (a b : nat) : option T :=
  insertionSort_outer (b - (a + 1)) data a (a + 1).

(** Slices up to this length are sorted by [insertionSort(data, 0, n)] alone
    in every release of Go: [quickSort] falls through to it below 8 elements
    (up to Go 1.5) and below 13 after a gap-6 pass that visits no index when
    [n <= 6] (Go 1.6 to 1.18); [pdqsort] calls it up to 12 elements (from
    Go 1.19). *)
Definition insertionSortOnly : nat := 6.

(** What [sort.Sort] does with a longer slice differs between releases
    (quicksort with a heapsort fallback, then pattern-defeating quicksort);
    it is a parameter of the model. *)
Variable sort_long : T -> option T.

(** [sort.Sort(data)]. *)
Definition sort_Sort (data : T) : option T :=
  let n := Len data in
  if decide (n <= insertionSortOnly) then insertionSort data 0 n
  else sort_long data.

End Sort.
End GoLib.

(** ** Package [rdap]: the bootstrap service registry *)

Module Bootstrap.
Import GoLib.

(** [type Values []string]. *)
Abbreviation Values := (list string).

(** [strings.Split(s, ":")[0] == "https"]: the text before the first colon
    (all of [s] when it has none) is [https]. *)
Definition isHTTPS (s : string) : bool :=
  match strings_Split s ":"%char with
  | [] => false
  | scheme :: _ => String.eqb scheme "https"
  end.

(** [func (v Values) Len() int]. *)
Definition Values_Len (v : Values) : nat := length v.

(** [func (v Values) Swap(i, j int)]: [v[i], v[j] = v[j], v[i]]; an index
    out of range panics. *)
Definition Values_Swap (v : Values) (i j : nat) : option Values :=
  x ← v !! i; y ← v !! j; Some (<[j:=x]> (<[i:=y]> v)).

(** [func (v Values) Less(i, j int) bool]: only [v[i]] is read. *)
Definition Values_Less (v : Values) (i j : nat) : option bool :=
  x ← v !! i; Some (isHTTPS x).

#[export] Instance Values_sort : sort_Interface Values :=
  {| Len := Values_Len; Less := Values_Less; Swap := Values_Swap |}.

(** A URI of any scheme but [https]. *)
Definition other (u : string) : bool := negb (isHTTPS u).

(** The [https] URIs of [v], the last of them first, then the others in the
    order [v] has them. *)
Definition httpsFirst (v : Values) : Values :=
  rev (List.filter isHTTPS v) ++ List.filter other v.

(** [type Service [2]Values]: the entries, then the URIs. *)
Definition Service : Type := (Values * Values)%type.

Definition Entries (s : Service) : list string := fst s.
Definition URIs (s : Service) : list string := snd s.

(** [type ServiceRegistry struct]; the publication time is kept as the text
    of the document. *)
Record ServiceRegistry := {
  Version : string;
  Publication : string;
  Description : string;
  Services : list Service
}.

(** Errors are values with a message, as [err.Error()] gives it. *)
Definition error : Type := string.

Section Unmarshal.

(** [json.Unmarshal(b, &sv)] for [sv : [2]Values]: the decoded pair or the
    decoder's error. *)
Variable json_Unmarshal : string -> error + Values * Values.
Variable sort_long : Values -> option Values.

(** [func (s *Service) UnmarshalJSON(b []byte) error], as the error (if any)
    and the value of [*s] afterwards; [None] is a panic inside [sort.Sort]. *)
Definition UnmarshalJSON (s : Service) (b : string) : option (option error * Service) :=
  match json_Unmarshal b with
  | inl err => Some (Some err, s)
  | inr sv =>
      sorted ← sort_Sort sort_long (snd sv);
      Some (None, (fst sv, sorted))
  end.

End Unmarshal.
End Bootstrap.

(** ** Package [client] *)

Module Client.
Import GoLib Bootstrap.

(** An [error] value: one made here by [fmt.Errorf], or one handed up
    unchanged from a callee, kept with the call it came from. *)
Inductive origin := FromNewRequest | FromDo | FromDecode | FromMatcher.

Inductive error :=
| Errorf (msg : string)
| Foreign (from : origin) (msg : string).

(** [type kind string] and its four constants. *)
Inductive kind := dns | asn | ipv4 | ipv6.

Definition kind_string (k : kind) : string :=
  match k with dns => "dns" | asn => "asn" | ipv4 => "ipv4" | ipv6 => "ipv6" end.

(** [var kindToSegment = map[kind]string{...}]. *)
Definition kindToSegment (k : kind) : string :=
  match k with
  | dns => "domain"
  | asn => "autnum"
  | ipv4 => "ip"
  | ipv6 => "ip"
  end.

(** [net.IP] is a byte slice and [net.IPNet] an address with a mask. *)
Definition IP : Type := list Z.
Record IPNet := { IPNet_IP : IP; IPNet_Mask : list Z }.

(** [func (ip IP) To4() IP]: a 4-byte address, or a 16-byte one that maps an
    IPv4 address (ten zero bytes, then [0xff 0xff]); [None] is [nil]. *)
Definition To4 (ip : IP) : option IP :=
  if decide (length ip = 4) then Some ip
  else if bool_decide (length ip = 16)
          && forallb (Z.eqb 0) (take 10 ip)
          && bool_decide (ip !! 10 = Some 255%Z)
          && bool_decide (ip !! 11 = Some 255%Z)
       then Some (drop 12 ip)
       else None.

(** The dynamic types [Client.query] is given as [identifier]. *)
Inductive identifier :=
| IdString (s : string)
| IdUint64 (n : N)
| IdIPNet (n : IPNet).

Record Request := { Method : string; URL : string }.

Record Response := {
  StatusCode : Z;
  Header : list (string * list string);
  Body : string
}.

(** [type Client struct]. *)
Record Client := { cacheDir : string; Bootstrap : string; Host : string }.

Definition RDAPBootstrap : string := "https://data.iana.org/rdap/%s.json".

Definition NewClient (cacheDir : string) : Client :=
  {| cacheDir := cacheDir; Bootstrap := RDAPBootstrap; Host := "" |}.

(** The three matchers of [bootstrap.ServiceRegistry]. *)
Inductive matcherName := MDomain | MAS | MIPNetwork.

(** What the package calls and the sources do not hold.  [fmt_Sprintf] is
    [fmt.Sprintf] with one operand, given as its text.  [NetState] is
    everything a request can depend on and change: the servers and the disk
    cache under [cacheDir].  [Object] is the decode target handed in by the
    caller ([*protocol.DomainResponse], [*protocol.ASResponse],
    [*protocol.IPNetwork]).  A decoder returns its error and the target as it
    leaves it; a matcher returns both results of the Go method. *)
Class Env := {
  NetState : Type;
  Object : Type;
  http_NewRequest : string -> string -> string + Request;
  cli_Do : string -> Request -> NetState -> (string + Response) * NetState;
  json_Decode_registry : string -> ServiceRegistry -> option string * ServiceRegistry;
  json_Decode_object : string -> Object -> option string * Object;
  fmt_Sprintf : string -> string -> string;
  IPNet_String : IPNet -> string;
  MatchDomain : ServiceRegistry -> string -> list string * option string;
  MatchAS : ServiceRegistry -> N -> list string * option string;
  MatchIPNetwork : ServiceRegistry -> IPNet -> list string * option string;
  sort_long : Values -> option Values
}.

(** What a run leaves behind: the requests sent and the matcher calls made,
    oldest first. *)
Inductive event :=
| EvDo (req : Request)
| EvMatch (m : matcherName) (r : ServiceRegistry) (id : identifier).

Record WorldOf (S : Type) := { net : S; trace : list event }.
Arguments net {S} _.
Arguments trace {S} _.

Abbreviation World := (WorldOf NetState).

(** The environment [E] with every response passed through [f] before the
    client sees it. *)
Definition withResponses (f : Response -> Response) (E : Env) : Env := {|
  NetState := @NetState E;
  Object := @Object E;
  http_NewRequest := @http_NewRequest E;
  cli_Do dir req st :=
    let '(r, st') := @cli_Do E dir req st in
    (match r with inl e => inl e | inr resp => inr (f resp) end, st');
  json_Decode_registry := @json_Decode_registry E;
  json_Decode_object := @json_Decode_object E;
  fmt_Sprintf := @fmt_Sprintf E;
  IPNet_String := @IPNet_String E;
  MatchDomain := @MatchDomain E;
  MatchAS := @MatchAS E;
  MatchIPNetwork := @MatchIPNetwork E;
  sort_long := @sort_long E
|}.

(** A call either returns or panics. *)
Inductive outcome (A : Type) := Panic | Return (a : A).
Arguments Panic {A}.
Arguments Return {A} a.

Section WithEnv.
Context `{Env}.

(** The decimal text of an unsigned integer. *)
Definition decimal (n : N) : string :=
  DecimalString.NilZero.string_of_uint (N.to_uint n).

(** The operand as [fmt]'s verb [%v] prints it. *)
Definition fmt_v (id : identifier) : string :=
  match id with
  | IdString s => s
  | IdUint64 n => decimal n
  | IdIPNet n => IPNet_String n
  end.

(** [func (c *Client) fetchAndUnmarshal(uri string, object interface{}) error];
    [decode] is [json.NewDecoder(resp.Body).Decode(&object)] for the dynamic
    type of [object]. *)
Definition fetchAndUnmarshal {T : Type}
    (decode : string -> T -> option string * T)
    (c : Client) (uri : string) (object : T) (w : World)
    : option error * T * World :=
  match http_NewRequest "GET" uri with
  | inl err => (Some (Foreign FromNewRequest err), object, w)
  | inr req =>
      let '(r, net') := cli_Do (cacheDir c) req (net w) in
      let w' := {| net := net'; trace := trace w ++ [EvDo req] |} in
      match r with
      | inl err => (Some (Foreign FromDo err), object, w')
      | inr resp =>
          let '(err, object') := decode (Body resp) object in
          (Foreign FromDecode <$> err, object', w')
      end
  end.

(** [fmt.Sprintf("%s/%s/%v", uri, segment, identifier)]. *)
Definition queryURL (uri segment : string) (id : identifier) : string :=
  uri +:+ "/" +:+ segment +:+ "/" +:+ fmt_v id.

(** The candidate loop of [Client.query]:
    [for _, uri := range uris { err := c.fetchAndUnmarshal(...); if err != nil { continue }; return nil }]
    and the [return] after it. *)
Fixpoint query_loop (c : Client) (segment : string) (id : identifier)
    (uris : list string) (object : Object) (w : World)
    : option error * Object * World :=
  match uris with
  | [] => (Some (Errorf ("no data available for " +:+ fmt_v id)), object, w)
  | uri :: rest =>
      let '(err, object', w') :=
        fetchAndUnmarshal json_Decode_object c (queryURL uri segment id) object w in
      match err with
      | Some _ => query_loop c segment id rest object' w'
      | None => (None, object', w')
      end
  end.

(** A run of the candidate loop in which every attempt fails: the attempts
    on [uris] take the target and the world from [(object, w)] to
    [(object', w')]. *)
Inductive AllFail (c : Client) (segment : string) (id : identifier)
    : list string -> Object -> World -> Object -> World -> Prop :=
| AllFail_nil object w : AllFail c segment id [] object w object w
| AllFail_cons uri rest object w e object1 w1 object' w' :
    fetchAndUnmarshal json_Decode_object c (queryURL uri segment id) object w
    = (Some e, object1, w1) ->
    AllFail c segment id rest object1 w1 object' w' ->
    AllFail c segment id (uri :: rest) object w object' w'.

(** The [switch kind] of [Client.query]: the matcher each kind selects. *)
Definition matcherOf (k : kind) : matcherName :=
  match k with dns => MDomain | asn => MAS | ipv4 | ipv6 => MIPNetwork end.

(** The call of the selected matcher with the type assertion of
    [identifier] to [string], [uint64] or a pointer to [net.IPNet]; an
    identifier of another dynamic type panics before the call. *)
Definition matcher (m : matcherName) (r : ServiceRegistry) (id : identifier)
    : outcome (list string * option string) :=
  match m, id with
  | MDomain, IdString s => Return (MatchDomain r s)
  | MAS, IdUint64 n => Return (MatchAS r n)
  | MIPNetwork, IdIPNet n => Return (MatchIPNetwork r n)
  | _, _ => Panic
  end.

Definition emptyRegistry : ServiceRegistry :=
  {| Version := ""; Publication := ""; Description := ""; Services := [] |}.

(** The end of [Client.query], from [sort.Sort(bootstrap.Values(uris))] on:
    the candidates are sorted in place and tried in that order. *)
Definition candidates (c : Client) (k : kind) (id : identifier) (object : Object)
    (uris : list string) (w : World) : outcome (option error * Object) * World :=
  match sort_Sort sort_long uris with
  | None => (Panic, w)
  | Some uris =>
      let '(err, object', w') := query_loop c (kindToSegment k) id uris object w in
      (Return (err, object'), w')
  end.

(** [func (c *Client) query(kind kind, identifier interface{}, object interface{}) error]. *)
Definition query (c : Client) (k : kind) (id : identifier) (object : Object)
    (w : World) : outcome (option error * Object) * World :=
  if decide (Host c = "") then
    let bootstrapURI := fmt_Sprintf (Bootstrap c) (kind_string k) in
    let '(err, r, w1) := fetchAndUnmarshal json_Decode_registry c bootstrapURI emptyRegistry w in
    match err with
    | Some e => (Return (Some e, object), w1)
    | None =>
        let w2 := {| net := net w1; trace := trace w1 ++ [EvMatch (matcherOf k) r id] |} in
        match matcher (matcherOf k) r id with
        | Panic => (Panic, w1)
        | Return (uris, Some e) => (Return (Some (Foreign FromMatcher e), object), w2)
        | Return (uris, None) =>
            if decide (length uris = 0)
            then (Return (Some (Errorf ("no matches for " +:+ fmt_v id)), object), w2)
            else candidates c k id object uris w2
        end
    end
  else candidates c k id object [Host c] w.

(** [QueryDomain], [QueryASN] and [QueryIPNetwork]: the decoded object, or
    the error ([return nil, err]). *)
Definition finish (r : outcome (option error * Object) * World)
    : outcome (error + Object) * World :=
  match r with
  | (Panic, w) => (Panic, w)
  | (Return (Some err, _), w) => (Return (inl err), w)
  | (Return (None, o), w) => (Return (inr o), w)
  end.

Definition QueryDomain (c : Client) (fqdn : string) (zero : Object) (w : World) :=
  finish (query c dns (IdString fqdn) zero w).

Definition QueryASN (c : Client) (as_ : N) (zero : Object) (w : World) :=
  finish (query c asn (IdUint64 as_) zero w).

(** [kind := ipv4; if ipnet.IP.To4() == nil { kind = ipv6 }]. *)
Definition ipKind (ipnet : IPNet) : kind :=
  match To4 (IPNet_IP ipnet) with None => ipv6 | Some _ => ipv4 end.

Definition QueryIPNetwork (c : Client) (ipnet : IPNet) (zero : Object) (w : World) :=
  finish (query c (ipKind ipnet) (IdIPNet ipnet) zero w).

End WithEnv.
End Client.

(** ** Package [client], first revision held by [src/client/client.go]

    One kind [ip] for both address families, no [Host] override, and the
    candidate URI fetched as it stands. *)

Module ClientRev1.
Import GoLib Bootstrap.
Import Client(error, Errorf, Foreign, origin, FromMatcher, identifier, IdString,
  IdUint64, IdIPNet, matcherName, MDomain, MAS, MIPNetwork, outcome, Panic,
  Return, Env, WorldOf, World, EvMatch).

Inductive kind := dns | asn | ip.

Definition kind_string (k : kind) : string :=
  match k with dns => "dns" | asn => "asn" | ip => "ip" end.

Record Client := { cacheDir : string; rdapEndpoint : string }.

Definition ianaRDAPEndpoint : string := "https://data.iana.org/rdap/%v.json".

Definition NewClient (cacheDir : string) : Client :=
  {| cacheDir := cacheDir; rdapEndpoint := ianaRDAPEndpoint |}.

Section WithEnv.
Context `{Env}.

(** [fetchAndUnmarshal] reads the same in both revisions; only [cacheDir] of
    the receiver is used. *)
Definition fetchAndUnmarshal {T : Type}
    (decode : string -> T -> option string * T)
    (c : Client) (uri : string) (object : T) (w : World)
    : option error * T * World :=
  Client.fetchAndUnmarshal decode
    {| Client.cacheDir := cacheDir c; Client.Bootstrap := rdapEndpoint c; Client.Host := "" |}
    uri object w.

Fixpoint query_loop (c : Client) (id : identifier)
    (uris : list string) (object : Client.Object) (w : World)
    : option error * Client.Object * World :=
  match uris with
  | [] => (Some (Errorf ("no data available for " +:+ Client.fmt_v id)), object, w)
  | uri :: rest =>
      let '(err, object', w') := fetchAndUnmarshal Client.json_Decode_object c uri object w in
      match err with
      | Some _ => query_loop c id rest object' w'
      | None => (None, object', w')
      end
  end.

Definition matcherOf (k : kind) : matcherName :=
  match k with dns => MDomain | asn => MAS | ip => MIPNetwork end.

(** [func (c *Client) query(kind kind, identifier interface{}, object interface{}) error]. *)
Definition query (c : Client) (k : kind) (id : identifier) (object : Client.Object)
    (w : World) : outcome (option error * Client.Object) * World :=
  let uri := Client.fmt_Sprintf (rdapEndpoint c) (kind_string k) in
  let '(err, r, w1) :=
    fetchAndUnmarshal Client.json_Decode_registry c uri Client.emptyRegistry w in
  match err with
  | Some e => (Return (Some e, object), w1)
  | None =>
      let w2 := {| Client.net := Client.net w1;
                   Client.trace := Client.trace w1 ++ [EvMatch (matcherOf k) r id] |} in
      match Client.matcher (matcherOf k) r id with
      | Panic => (Panic, w1)
      | Return (uris, Some e) => (Return (Some (Foreign FromMatcher e), object), w2)
      | Return (uris, None) =>
          if decide (length uris = 0)
          then (Return (Some (Errorf ("no matches for " +:+ Client.fmt_v id)), object), w2)
          else
            match sort_Sort Client.sort_long uris with
            | None => (Panic, w2)
            | Some uris =>
                let '(err, object', w') := query_loop c id uris object w2 in
                (Return (err, object'), w')
            end
      end
  end.

End WithEnv.
End ClientRev1.

(** ** Package [handler] *)

Module Handler.
Import GoLib.

Inductive hkind := KASN | KIP | KIPNetwork | KDomain | KEntity.

(** What the handlers call and the sources do not hold: the parsers of Go's
    [net] and [regexp] packages, the bootstrap client ([h.Bootstrap.ASN] and
    its siblings, which resolve an object to server URIs), the RDAP client
    ([client.NewClient(uris, h.HTTPClient).ASN] and its siblings) and the
    text output ([ToText]).  [State] is everything those calls can depend on
    and change.  [Client_Domain] may return a nil record with a nil error. *)
Class Env := {
  State : Type;
  Error : Type;
  IP : Type;
  IPNet : Type;
  HTTPClient : Type;
  BootstrapClient : Type;
  Writer : Type;
  ASRecord : Type;
  IPNetworkRecord : Type;
  DomainRecord : Type;
  EntityRecord : Type;
  net_ParseIP : string -> option IP;
  net_ParseCIDR : string -> option (IP * IPNet);
  isFQDN_MatchString : string -> bool;
  Bootstrap_ASN : BootstrapClient -> N -> State -> list string * option Error * State;
  Bootstrap_IP : BootstrapClient -> IP -> State -> list string * option Error * State;
  Bootstrap_IPNetwork : BootstrapClient -> IPNet -> State -> list string * option Error * State;
  Bootstrap_Domain : BootstrapClient -> string -> State -> list string * option Error * State;
  Client_ASN : list string -> HTTPClient -> N -> State -> (Error + ASRecord) * State;
  Client_IP : list string -> HTTPClient -> IP -> State -> (Error + IPNetworkRecord) * State;
  Client_IPNetwork : list string -> HTTPClient -> IPNet -> State -> (Error + IPNetworkRecord) * State;
  Client_Domain : list string -> HTTPClient -> string -> State -> (Error + option DomainRecord) * State;
  Client_Entity : list string -> HTTPClient -> string -> State -> (Error + EntityRecord) * State;
  AS_ToText : ASRecord -> Writer -> State -> option Error * State;
  IPNetwork_ToText : IPNetworkRecord -> Writer -> State -> option Error * State;
  Domain_ToText : DomainRecord -> Writer -> State -> option Error * State;
  Entity_ToText : EntityRecord -> Writer -> State -> option Error * State
}.

(** [type Handler struct]; a nil [Bootstrap] is [None]. *)
Record Handler `{Env} := {
  URIs : list string;
  HTTPClient_ : HTTPClient;
  Bootstrap : option BootstrapClient;
  Writer_ : Writer
}.

(** What a run leaves behind, oldest first: a bootstrap resolution, an RDAP
    client query (both reach the network), a record written as text. *)
Inductive event :=
| EvBootstrap (k : hkind) (object : string)
| EvClient (k : hkind) (uris : list string) (object : string)
| EvToText (k : hkind).

Record World `{Env} := { state : State; trace : list event }.

Section WithEnv.
Context `{Env}.

Definition log (e : event) (st : State) (w : World) : World :=
  {| state := st; trace := trace w ++ [e] |}.

(** The result [(bool, error)] of a handler, with the world it leaves. *)
Definition result : Type := bool * option Error * World.

(** [func (h *Handler) ASN(object string) (bool, error)]. *)
Definition ASN (h : Handler) (object : string) (w : World) : result :=
  match strconv_ParseUint object 32 with
  | (_, Some _) => (false, None, w)
  | (asn, None) =>
      let '(uris, err, w) :=
        match Bootstrap h with
        | None => (URIs h, None, w)
        | Some b =>
            let '(uris, err, st) := Bootstrap_ASN b asn (state w) in
            (uris, err, log (EvBootstrap KASN object) st w)
        end in
      match err with
      | Some e => (true, Some e, w)
      | None =>
          let '(r, st) := Client_ASN uris (HTTPClient_ h) asn (state w) in
          let w := log (EvClient KASN uris object) st w in
          match r with
          | inl e => (true, Some e, w)
          | inr r =>
              let '(err, st) := AS_ToText r (Writer_ h) (state w) in
              (true, err, log (EvToText KASN) st w)
          end
      end
  end.

(** [func (h *Handler) Entity(object string) (bool, error)]: there is no
    bootstrap for entities. *)
Definition Entity (h : Handler) (object : string) (w : World) : result :=
  let '(r, st) := Client_Entity (URIs h) (HTTPClient_ h) object (state w) in
  let w := log (EvClient KEntity (URIs h) object) st w in
  match r with
  | inl e => (true, Some e, w)
  | inr r =>
      let '(err, st) := Entity_ToText r (Writer_ h) (state w) in
      (true, err, log (EvToText KEntity) st w)
  end.

(** [func (h *Handler) IPNetwork(object string) (bool, error)]. *)
Definition IPNetwork (h : Handler) (object : string) (w : World) : result :=
  match net_ParseCIDR object with
  | None => (false, None, w)
  | Some (_, cidr) =>
      let '(uris, err, w) :=
        match Bootstrap h with
        | None => (URIs h, None, w)
        | Some b =>
            let '(uris, err, st) := Bootstrap_IPNetwork b cidr (state w) in
            (uris, err, log (EvBootstrap KIPNetwork object) st w)
        end in
      match err with
      | Some e => (true, Some e, w)
      | None =>
          let '(r, st) := Client_IPNetwork uris (HTTPClient_ h) cidr (state w) in
          let w := log (EvClient KIPNetwork uris object) st w in
          match r with
          | inl e => (true, Some e, w)
          | inr r =>
              let '(err, st) := IPNetwork_ToText r (Writer_ h) (state w) in
              (true, err, log (EvToText KIPNetwork) st w)
          end
      end
  end.

(** [func (h *Handler) IP(object string) (bool, error)]. *)
Definition IP_ (h : Handler) (object : string) (w : World) : result :=
  match net_ParseIP object with
  | None => (false, None, w)
  | Some ip =>
      let '(uris, err, w) :=
        match Bootstrap h with
        | None => (URIs h, None, w)
        | Some b =>
            let '(uris, err, st) := Bootstrap_IP b ip (state w) in
            (uris, err, log (EvBootstrap KIP object) st w)
        end in
      match err with
      | Some e => (true, Some e, w)
      | None =>
          let '(r, st) := Client_IP uris (HTTPClient_ h) ip (state w) in
          let w := log (EvClient KIP uris object) st w in
          match r with
          | inl e => (true, Some e, w)
          | inr r =>
              let '(err, st) := IPNetwork_ToText r (Writer_ h) (state w) in
              (true, err, log (EvToText KIP) st w)
          end
      end
  end.

(** [func (h *Handler) Domain(object string) (bool, error)]; a nil record is
    claimed without output. *)
Definition Domain (h : Handler) (object : string) (w : World) : result :=
  if isFQDN_MatchString object then
    let '(uris, err, w) :=
      match Bootstrap h with
      | None => (URIs h, None, w)
      | Some b =>
          let '(uris, err, st) := Bootstrap_Domain b object (state w) in
          (uris, err, log (EvBootstrap KDomain object) st w)
      end in
    match err with
    | Some e => (true, Some e, w)
    | None =>
        let '(r, st) := Client_Domain uris (HTTPClient_ h) object (state w) in
        let w := log (EvClient KDomain uris object) st w in
        match r with
        | inl e => (true, Some e, w)
        | inr None => (true, None, w)
        | inr (Some r) =>
            let '(err, st) := Domain_ToText r (Writer_ h) (state w) in
            (true, err, log (EvToText KDomain) st w)
        end
    end
  else (false, None, w).

(** The shape the four bootstrapped handlers share once the object is
    parsed, for the proofs: [h.Bootstrap] resolves the URIs when it is set,
    the RDAP client fetches the record, [toText] prints it. *)
Definition serve {A R : Type} (k : hkind) (object : string)
    (lookup : BootstrapClient -> A -> State -> list string * option Error * State)
    (fetch : list string -> HTTPClient -> A -> State -> (Error + R) * State)
    (toText : R -> World -> result)
    (h : Handler) (arg : A) (w : World) : result :=
  let '(uris, err, w) :=
    match Bootstrap h with
    | None => (URIs h, None, w)
    | Some b =>
        let '(uris, err, st) := lookup b arg (state w) in
        (uris, err, log (EvBootstrap k object) st w)
    end in
  match err with
  | Some e => (true, Some e, w)
  | None =>
      let '(r, st) := fetch uris (HTTPClient_ h) arg (state w) in
      let w := log (EvClient k uris object) st w in
      match r with
      | inl e => (true, Some e, w)
      | inr r => toText r w
      end
  end.

(** The last step of a handler:
    [if err := x.ToText(h.Writer); err != nil { return true, err }; return true, nil]. *)
Definition print {R : Type} (k : hkind)
    (toText : R -> Writer -> State -> option Error * State)
    (h : Handler) (r : R) (w : World) : result :=
  let '(err, st) := toText r (Writer_ h) (state w) in
  (true, err, log (EvToText k) st w).

(** The loop of [Handler.Query] over the handlers left, [ok] being the
    variable of that name. *)
Fixpoint Query_loop (handlers : list (string -> World -> result))
    (object : string) (ok : bool) (w : World) : result :=
  match handlers with
  | [] => (ok, None, w)
  | handler :: rest =>
      let '(ok, err, w') := handler object w in
      match err with
      | Some e => (ok, Some e, w')
      | None => if ok then (ok, None, w') else Query_loop rest object ok w'
      end
  end.

Definition handlers (h : Handler) : list (string -> World -> result) :=
  [ASN h; IP_ h; IPNetwork h; Domain h; Entity h].

(** [func (h *Handler) Query(object string) (bool, error)]. *)
Definition Query (h : Handler) (object : string) (w : World) : result :=
  Query_loop (handlers h) object false w.

(** A handler settles the query when it claims the object or fails. *)
Definition settles (r : result) : Prop := r.1.1 = true \/ r.1.2 <> None.

(** A run of handlers that all decline ([false] and a nil error), taking
    the world from [w] to [w']. *)
Inductive Declined (object : string)
    : list (string -> World -> result) -> World -> World -> Prop :=
| Declined_nil w : Declined object [] w w
| Declined_cons hd rest w w1 w' :
    hd object w = (false, None, w1) ->
    Declined object rest w1 w' ->
    Declined object (hd :: rest) w w'.

End WithEnv.

(** The handler an event belongs to. *)
Definition eventKind (e : event) : hkind :=
  match e with
  | EvBootstrap k _ | EvClient k _ _ | EvToText k => k
  end.

End Handler.

(** ** Test doubles

    Environments in the manner of the repository's tests, which replace the
    HTTP client by a function from the request to a canned reply
    ([httpClientFunc] in [src/transport_test.go]).  The theorems hold in
    every environment; these are the ones they are run in. *)

Module Doubles.
Import GoLib Bootstrap.

(** [Sprintf] with one [%s] or [%v]: the operand replaces the first verb. *)
Fixpoint Sprintf1 (template operand : string) : string :=
  match template with
  | EmptyString => EmptyString
  | String "%" (String "s" rest) | String "%" (String "v" rest) => operand +:+ rest
  | String c rest => String c (Sprintf1 rest operand)
  end.

Definition isHex (c : ascii) : bool :=
  match digit (N_of_ascii c) with
  | Some d => (d <? 16)%N
  | None => false
  end.

(** A percent sign that two hexadecimal digits do not follow, which
    [url.Parse] refuses as an invalid URL escape. *)
Fixpoint badEscape (u : string) : bool :=
  match u with
  | EmptyString => false
  | String "%" rest =>
      match rest with
      | String a (String b rest') => negb (isHex a && isHex b) || badEscape rest'
      | _ => true
      end
  | String _ rest => badEscape rest
  end.

(** [e] ends [s]. *)
Definition hasSuffix (s e : string) : bool :=
  String.prefix (String.rev e) (String.rev s).

(** A matcher for the double: the URIs of the first service one of whose
    entries ends the name. *)
Definition matchSuffix (r : ServiceRegistry) (fqdn : string) : list string * option string :=
  match list_find (fun svc => Is_true (existsb (hasSuffix fqdn) (Entries svc))) (Services r) with
  | Some (_, svc) => (URIs svc, None)
  | None => ([], None)
  end.

(** A body the double's decoder accepts starts an object and is not the
    malformed text [{{{] of the tests. *)
Definition decodable (body : string) : bool :=
  String.prefix "{" body && negb (String.prefix "{{" body).

(** The client's environment over a table [server] from URL to reply (an
    error text or a response).  A URL with a bad escape cannot be parsed; a
    decodable body reads as [registry] when a registry is decoded, and as
    its own text when an object is. *)
Definition scripted (server : string -> string + Client.Response)
    (registry : ServiceRegistry) : Client.Env := {|
  Client.NetState := unit;
  Client.Object := string;
  Client.http_NewRequest m u :=
    if badEscape u then inl "invalid URL escape"
    else inr {| Client.Method := m; Client.URL := u |};
  Client.cli_Do _ req st := (server (Client.URL req), st);
  Client.json_Decode_registry body r :=
    if decodable body then (None, registry)
    else (Some (if String.eqb body "" then "EOF" else "invalid character"), r);
  Client.json_Decode_object body o :=
    if decodable body then (None, body)
    else (Some (if String.eqb body "" then "EOF" else "invalid character"), o);
  Client.fmt_Sprintf := Sprintf1;
  Client.IPNet_String n := "192.0.2.0/24";
  Client.MatchDomain := matchSuffix;
  Client.MatchAS r n := ([], None);
  Client.MatchIPNetwork r n := ([], None);
  Client.sort_long v := Some v
|}.

Definition rdapJSON : list (string * list string) :=
  [("Content-Type", ["application/rdap+json"])].

Definition ok200 (body : string) : string + Client.Response :=
  inr {| Client.StatusCode := 200; Client.Header := rdapJSON; Client.Body := body |}.

(** The reply of the test [it should store the last error (not found)]: the
    status alone, no header, no body. *)
Definition notFound : string + Client.Response :=
  inr {| Client.StatusCode := 404; Client.Header := []; Client.Body := "" |}.

(** A reply with the status and media type of an error page around a JSON
    object. *)
Definition htmlNotFound (body : string) : string + Client.Response :=
  inr {| Client.StatusCode := 404;
         Client.Header := [("Content-Type", ["text/html"])];
         Client.Body := body |}.

(** A registry of another version than the tests' [version] constant, as
    the test [it should return an unsupported version from the bootstrap
    server] builds it, with one service for [com]. *)
Definition otherVersion : ServiceRegistry :=
  {| Version := "1.0x"; Publication := "2015-06-01T00:00:00Z";
     Description := "This is a test registry";
     Services := [(["com"], ["https://rdap.beta.registro.br"])] |}.

(** The server of the tests' good case: every URL answers [200] with the
    RDAP media type and an empty JSON object, the bootstrap one included. *)
Definition rdapServer : Client.Env := scripted (fun _ => ok200 "{}") otherVersion.

(** A server that answers every URL with an error page's status and media
    type around a JSON object. *)
Definition htmlServer : Client.Env := scripted (fun _ => htmlNotFound "{}") otherVersion.

(** The server of the test [it should store the last error (not found)]. *)
Definition notFoundServer : Client.Env := scripted (fun _ => notFound) otherVersion.

(** A rewriting of responses that keeps the body: the status becomes [404]
    and the media type [text/html]. *)
Definition asErrorPage (resp : Client.Response) : Client.Response :=
  {| Client.StatusCode := 404;
     Client.Header := [("Content-Type", ["text/html"])];
     Client.Body := Client.Body resp |}.

(** A client with a server override, as [c.Host] set by the caller. *)
Definition override : Client.Client :=
  {| Client.cacheDir := "cache"; Client.Bootstrap := Client.RDAPBootstrap;
     Client.Host := "https://rdap.registro.br" |}.

Definition GET (url : string) : Client.Request :=
  {| Client.Method := "GET"; Client.URL := url |}.

Definition start {S : Type} (n : S) : Client.WorldOf S :=
  {| Client.net := n; Client.trace := [] |}.

(** The handlers' environment: one address and one block parse, every
    non-empty text passes for a domain name, the bootstrap gives one server,
    and the RDAP client and the output succeed. *)
Definition canned : Handler.Env := {|
  Handler.State := unit;
  Handler.Error := string;
  Handler.IP := list Z;
  Handler.IPNet := list Z * nat;
  Handler.HTTPClient := unit;
  Handler.BootstrapClient := unit;
  Handler.Writer := unit;
  Handler.ASRecord := string;
  Handler.IPNetworkRecord := string;
  Handler.DomainRecord := string;
  Handler.EntityRecord := string;
  Handler.net_ParseIP s :=
    if String.eqb s "192.0.2.1" then Some [192; 0; 2; 1]%Z else None;
  Handler.net_ParseCIDR s :=
    if String.eqb s "192.0.2.0/24"
    then Some ([192; 0; 2; 0]%Z, ([192; 0; 2; 0]%Z, 24)) else None;
  Handler.isFQDN_MatchString s := negb (String.eqb s "");
  Handler.Bootstrap_ASN _ _ st := (["https://rdap.example"], None, st);
  Handler.Bootstrap_IP _ _ st := (["https://rdap.example"], None, st);
  Handler.Bootstrap_IPNetwork _ _ st := (["https://rdap.example"], None, st);
  Handler.Bootstrap_Domain _ _ st := (["https://rdap.example"], None, st);
  Handler.Client_ASN _ _ _ st := (inr "autnum", st);
  Handler.Client_IP _ _ _ st := (inr "ip network", st);
  Handler.Client_IPNetwork _ _ _ st := (inr "ip network", st);
  Handler.Client_Domain _ _ _ st := (inr (Some "domain"), st);
  Handler.Client_Entity _ _ _ st := (inr "entity", st);
  Handler.AS_ToText _ _ st := (None, st);
  Handler.IPNetwork_ToText _ _ st := (None, st);
  Handler.Domain_ToText _ _ st := (None, st);
  Handler.Entity_ToText _ _ st := (None, st)
|}.

Definition handler : @Handler.Handler canned :=
  @Handler.Build_Handler canned [] tt (Some tt) tt.

Definition idle : @Handler.World canned :=
  @Handler.Build_World canned tt [].

End Doubles.


(** ** What one handler does, as a trace *)

Module HandlerRuns.
Import GoLib Handler.

Section WithEnv.
Context `{Env}.

(** The bootstrap lookup the handler of kind [k] makes for [object] in the
    state [st], with the value its parse gives: [h.Bootstrap.ASN(asn)],
    [h.Bootstrap.IP(ip)], [h.Bootstrap.IPNetwork(cidr)] or
    [h.Bootstrap.Domain(object)], as the URIs, the error and the state it
    leaves.  [None] when the handler makes none: the parse refuses the
    object, or the kind is the entity. *)
Definition bootstrapLookup (b : BootstrapClient) (k : hkind) (object : string)
    (st : State) : option (list string * option Error * State) :=
  match k with
  | KASN =>
      match strconv_ParseUint object 32 with
      | (asn, None) => Some (Bootstrap_ASN b asn st)
      | (_, Some _) => None
      end
  | KIP =>
      match net_ParseIP object with
      | Some ip => Some (Bootstrap_IP b ip st)
      | None => None
      end
  | KIPNetwork =>
      match net_ParseCIDR object with
      | Some (_, cidr) => Some (Bootstrap_IPNetwork b cidr st)
      | None => None
      end
  | KDomain =>
      if isFQDN_MatchString object then Some (Bootstrap_Domain b object st)
      else None
  | KEntity => None
  end.

(** The events of one handler that took the object, started in the world
    [w], in the order of its body.  With [h.Bootstrap] set (never for an
    entity) the bootstrap lookup comes first: its error ends the handler, and
    otherwise the RDAP client query is given the URIs the lookup returned.
    Without it the RDAP client query is given [h.URIs].  The output of the
    record comes last, when there is a record to print. *)
Definition oneRun (h : Handler) (k : hkind) (object : string) (w : World)
    (evs : list event) : Prop :=
  (exists b uris e st,
     Bootstrap h = Some b /\ k <> KEntity
     /\ bootstrapLookup b k object (state w) = Some (uris, Some e, st)
     /\ evs = [EvBootstrap k object])
  \/ (exists b uris st ts,
        Bootstrap h = Some b /\ k <> KEntity
        /\ bootstrapLookup b k object (state w) = Some (uris, None, st)
        /\ (ts = [] \/ ts = [EvToText k])
        /\ evs = EvBootstrap k object :: EvClient k uris object :: ts)
  \/ (exists ts,
        (Bootstrap h = None \/ k = KEntity)
        /\ (ts = [] \/ ts = [EvToText k])
        /\ evs = EvClient k (URIs h) object :: ts).

(** What a handler may do with an object: decline it and leave the world as
    it was, or take it ([true]) with one run of its kind. *)
Definition declinesOrRuns (h : Handler) (k : hkind)
    (hd : string -> World -> result) : Prop :=
  forall object w,
    hd object w = (false, None, w)
    \/ ((hd object w).1.1 = true
        /\ exists evs, trace (hd object w).2 = trace w ++ evs
                       /\ oneRun h k object w evs).

End WithEnv.
End HandlerRuns.

(** ** The requests of the candidate loop *)

Module ClientRuns.
Import Client.

Section WithEnv.
Context `{Env}.

(** The request a candidate gives rise to, if its URL can be parsed. *)
Definition requestFor (segment : string) (id : identifier) (uri : string)
    : option event :=
  match http_NewRequest "GET" (queryURL uri segment id) with
  | inr req => Some (EvDo req)
  | inl _ => None
  end.

End WithEnv.
End ClientRuns.

(** ** The public operations as they are called

    [QueryDomain], [QueryASN] and [QueryIPNetwork] with the receiver and the
    network as the pointers they are, [None] being [nil].  A nil receiver is
    dereferenced by [c.Host], the first thing [Client.query] reads; a nil
    network by [ipnet.IP.To4()], before the query starts.  Either panics with
    nothing done. *)

Module ClientCalls.
Import Client.

Section WithEnv.
Context `{Env}.

Definition QueryDomain (c : option Client) (fqdn : string) (zero : Object)
    (w : World) : outcome (error + Object) * World :=
  match c with
  | None => (Panic, w)
  | Some c => Client.QueryDomain c fqdn zero w
  end.

Definition QueryASN (c : option Client) (as_ : N) (zero : Object)
    (w : World) : outcome (error + Object) * World :=
  match c with
  | None => (Panic, w)
  | Some c => Client.QueryASN c as_ zero w
  end.

Definition QueryIPNetwork (c : option Client) (ipnet : option IPNet)
    (zero : Object) (w : World) : outcome (error + Object) * World :=
  match ipnet, c with
  | Some n, Some c => Client.QueryIPNetwork c n zero w
  | _, _ => (Panic, w)
  end.

End WithEnv.
End ClientCalls.

(** ** The endpoint of the first revision *)

Module ClientRev1Ops.
Import ClientRev1.

(** [func (c *Client) SetRDAPEndpoint(uri string)]: [c.rdapEndpoint = uri]. *)
Definition SetRDAPEndpoint (c : Client) (uri : string) : Client :=
  {| cacheDir := cacheDir c; rdapEndpoint := uri |}.

End ClientRev1Ops.

(** ** The pattern [isFQDN] of package [handler]

    Regular expressions over bytes with their matching by derivatives, and
    the pattern of [src/handler/handler.go] written in them. *)

Module FQDN.

Inductive regex :=
| Empty
| Eps
| Class (p : ascii -> bool)
| Seq (r1 r2 : regex)
| Alt (r1 r2 : regex)
| Star (r : regex).

(** [r?]. *)
Definition Opt (r : regex) : regex := Alt r Eps.

(** [r{0,n}]: at most [n] times [r]. *)
Fixpoint upto (n : nat) (r : regex) : regex :=
  match n with
  | 0 => Eps
  | S n' => Opt (Seq r (upto n' r))
  end.

(** The texts a regular expression matches in full. *)
Inductive matches : regex -> list ascii -> Prop :=
| MEps : matches Eps []
| MClass p c : p c = true -> matches (Class p) [c]
| MSeq r1 r2 s1 s2 :
    matches r1 s1 -> matches r2 s2 -> matches (Seq r1 r2) (s1 ++ s2)
| MAltL r1 r2 s : matches r1 s -> matches (Alt r1 r2) s
| MAltR r1 r2 s : matches r2 s -> matches (Alt r1 r2) s
| MStar0 r : matches (Star r) []
| MStarS r s1 s2 :
    matches r s1 -> matches (Star r) s2 -> matches (Star r) (s1 ++ s2).

Fixpoint nullable (r : regex) : bool :=
  match r with
  | Empty => false
  | Eps => true
  | Class _ => false
  | Seq r1 r2 => nullable r1 && nullable r2
  | Alt r1 r2 => nullable r1 || nullable r2
  | Star _ => true
  end.

Fixpoint deriv (c : ascii) (r : regex) : regex :=
  match r with
  | Empty => Empty
  | Eps => Empty
  | Class p => if p c then Eps else Empty
  | Seq r1 r2 =>
      if nullable r1 then Alt (Seq (deriv c r1) r2) (deriv c r2)
      else Seq (deriv c r1) r2
  | Alt r1 r2 => Alt (deriv c r1) (deriv c r2)
  | Star r1 => Seq (deriv c r1) (Star r1)
  end.

Fixpoint matchList (r : regex) (s : list ascii) : bool :=
  match s with
  | [] => nullable r
  | c :: s' => matchList (deriv c r) s'
  end.

(** [regexp.MustCompile(p).MatchString(s)] for a pattern [p] anchored at
    both ends by [^] and [$]: the whole of [s] matches. *)
Definition MatchString (r : regex) (s : string) : bool :=
  matchList r (list_ascii_of_string s).

(** [[[:alnum:]]]: an ASCII letter or digit. *)
Definition alnum (c : ascii) : bool :=
  let n := N_of_ascii c in
  ((48 <=? n) && (n <=? 57) || (65 <=? n) && (n <=? 90)
   || (97 <=? n) && (n <=? 122))%N.

Definition hyphen : regex := Class (Ascii.eqb "-").
Definition dot : regex := Class (Ascii.eqb ".").

(** [[[:alnum:]](([[:alnum:]]|\-){0,61}[[:alnum:]])?]: one label. *)
Definition label : regex :=
  Seq (Class alnum) (Opt (Seq (upto 61 (Alt (Class alnum) hyphen)) (Class alnum))).

(** [(label\.)*label]. *)
Definition labels : regex := Seq (Star (Seq label dot)) label.

(** [var isFQDN = regexp.MustCompile(...)]: [^(labels)?(\.)?$]. *)
Definition pattern : regex := Seq (Opt labels) (Opt dot).

Definition isFQDN (s : string) : bool := MatchString pattern s.

(** The bytes a name may hold. *)
Definition ldh (c : ascii) : bool :=
  alnum c || Ascii.eqb "-" c || Ascii.eqb "." c.

(** Every character class of [r] lies within [P]. *)
Fixpoint classesWithin (P : ascii -> bool) (r : regex) : Prop :=
  match r with
  | Empty | Eps => True
  | Class p => forall c, p c = true -> P c = true
  | Seq r1 r2 | Alt r1 r2 => classesWithin P r1 /\ classesWithin P r2
  | Star r1 => classesWithin P r1
  end.

End FQDN.

(** ** More test doubles *)

Module MoreDoubles.
Import Bootstrap Doubles.

(** The servers of the fallback scenario: the [https] ones refuse the
    connection, the others answer. *)
Definition httpsDown : Client.Env :=
  scripted (fun url => if isHTTPS url then inl "connection refused" else ok200 "{}")
           otherVersion.

(** The handler of the double without a bootstrap client, its servers
    given by the caller. *)
Definition direct : @Handler.Handler canned :=
  @Handler.Build_Handler canned ["https://rdap.registro.br"] tt None tt.

(** The handlers' environment with the pattern of the source for
    [isFQDN.MatchString]. *)
Definition cannedFQDN : Handler.Env := {|
  Handler.State := unit;
  Handler.Error := string;
  Handler.IP := list Z;
  Handler.IPNet := list Z * nat;
  Handler.HTTPClient := unit;
  Handler.BootstrapClient := unit;
  Handler.Writer := unit;
  Handler.ASRecord := string;
  Handler.IPNetworkRecord := string;
  Handler.DomainRecord := string;
  Handler.EntityRecord := string;
  Handler.net_ParseIP := @Handler.net_ParseIP canned;
  Handler.net_ParseCIDR := @Handler.net_ParseCIDR canned;
  Handler.isFQDN_MatchString := FQDN.isFQDN;
  Handler.Bootstrap_ASN := @Handler.Bootstrap_ASN canned;
  Handler.Bootstrap_IP := @Handler.Bootstrap_IP canned;
  Handler.Bootstrap_IPNetwork := @Handler.Bootstrap_IPNetwork canned;
  Handler.Bootstrap_Domain := @Handler.Bootstrap_Domain canned;
  Handler.Client_ASN := @Handler.Client_ASN canned;
  Handler.Client_IP := @Handler.Client_IP canned;
  Handler.Client_IPNetwork := @Handler.Client_IPNetwork canned;
  Handler.Client_Domain := @Handler.Client_Domain canned;
  Handler.Client_Entity := @Handler.Client_Entity canned;
  Handler.AS_ToText := @Handler.AS_ToText canned;
  Handler.IPNetwork_ToText := @Handler.IPNetwork_ToText canned;
  Handler.Domain_ToText := @Handler.Domain_ToText canned;
  Handler.Entity_ToText := @Handler.Entity_ToText canned
|}.

Definition handlerFQDN : @Handler.Handler cannedFQDN :=
  @Handler.Build_Handler cannedFQDN [] tt (Some tt) tt.

Definition idleFQDN : @Handler.World cannedFQDN :=
  @Handler.Build_World cannedFQDN tt [].

End MoreDoubles.

(** * Properties *)

(** ** [strconv.ParseUint] *)

Module GoLibFacts.
Import GoLib.

Local Open Scope N_scope.

Lemma digit_decimal (c : ascii) :
  isDigit c = true ->
  digit (N_of_ascii c) = Some (N_of_ascii c - 48) /\ N_of_ascii c - 48 < 10.
Proof.
  unfold isDigit, digit. intros Hd. rewrite Hd.
  apply andb_prop in Hd. destruct Hd as [_ Hhi].
  apply N.leb_le in Hhi. split; [reflexivity | lia].
Qed.

(** A byte that is not a decimal digit is no digit at all or a letter, worth
    ten or more. *)
Lemma digit_other (c : ascii) (d : N) :
  isDigit c = false -> digit (N_of_ascii c) = Some d -> 10 <= d.
Proof.
  unfold isDigit, digit. intros Hd. rewrite Hd. clear Hd.
  destruct ((97 <=? _) && _); [|discriminate]. intros [= <-]. lia.
Qed.

Lemma decimalValue_ge (s : string) (acc : N) : acc <= decimalValue acc s.
Proof.
  revert acc. induction s as [|c rest IH]; intros acc; simpl; [lia|].
  etransitivity; [|apply IH]. lia.
Qed.

(** The loop of [ParseUint] for base 10 and 32 bits, entered with a value
    that fits: it ends without error exactly on a text of decimal digits
    whose value fits, and then returns that value. *)
Lemma ParseUint_loop_spec (s : string) (n : N) :
  n <= 4294967295 ->
  let r := ParseUint_loop 10 4294967295 (maxUint64 / 10 + 1) s n in
  (r.2 = None <-> allDigits s = true /\ decimalValue n s <= 4294967295)
  /\ (r.2 = None -> r.1 = decimalValue n s).
Proof.
  revert n. induction s as [|c rest IH]; intros n Hn; simpl.
  { split; [|reflexivity]. split; [now split | reflexivity]. }
  destruct (isDigit c) eqn:Hc.
  - destruct (digit_decimal c Hc) as [-> Hlt]. simpl.
    set (d := N_of_ascii c - 48) in *.
    rewrite (proj2 (N.leb_gt 10 d)) by exact Hlt.
    change (maxUint64 / 10 + 1) with 1844674407370955162.
    rewrite (proj2 (N.leb_gt 1844674407370955162 n)) by lia.
    unfold wrap64.
    rewrite (N.mod_small (n * 10)) by lia.
    rewrite (N.mod_small (n * 10 + d)) by lia.
    rewrite (proj2 (N.ltb_ge (n * 10 + d) (n * 10))) by lia. simpl.
    destruct (4294967295 <? n * 10 + d) eqn:Hov.
    + apply N.ltb_lt in Hov. simpl.
      pose proof (decimalValue_ge rest (n * 10 + d)).
      split; [|discriminate]. split; [discriminate|]. intros [_ Hle]. lia.
    + apply N.ltb_ge in Hov. exact (IH (n * 10 + d) Hov).
  - simpl. split.
    + split; [|now intros [? _]].
      destruct (digit (N_of_ascii c)) as [d|] eqn:Hd; [|discriminate].
      rewrite (proj2 (N.leb_le 10 d)) by (eapply digit_other; eassumption).
      discriminate.
    + destruct (digit (N_of_ascii c)) as [d|] eqn:Hd; [|discriminate].
      rewrite (proj2 (N.leb_le 10 d)) by (eapply digit_other; eassumption).
      discriminate.
Qed.

(** [strconv.ParseUint(s, 10, 32)] returns a nil error exactly on a
    non-empty text of decimal digits whose value is below [2^32], and the
    result is then that value. *)
Lemma strconv_ParseUint_32 (s : string) :
  ((strconv_ParseUint s 32).2 = None <->
     s <> EmptyString /\ allDigits s = true /\ decimalValue 0 s < 4294967296)
  /\ ((strconv_ParseUint s 32).2 = None ->
      (strconv_ParseUint s 32).1 = decimalValue 0 s).
Proof.
  unfold strconv_ParseUint. case_decide as Hs.
  - subst s. simpl. split; [|discriminate].
    split; [discriminate | now intros [? _]].
  - change (wrap64 (wrap64 (N.shiftl 1 32) + maxUint64)) with 4294967295.
    destruct (ParseUint_loop_spec s 0) as [Hiff Hval]; [lia|].
    split; [|exact Hval]. rewrite Hiff. split.
    + intros [Hd Hle]. split; [exact Hs|]. split; [exact Hd | lia].
    + intros (_ & Hd & Hlt). split; [exact Hd | lia].
Qed.

End GoLibFacts.
(** ** The URI sort of the bootstrap registry *)

Module BootstrapFacts.
Import GoLib Bootstrap.

Lemma adjacent_lookup (pre : Values) (y x : string) (post : Values) :
  (pre ++ y :: x :: post) !! length pre = Some y
  /\ (pre ++ y :: x :: post) !! S (length pre) = Some x.
Proof. induction pre as [|p pre IH]; simpl; auto. Qed.

(** Swapping two neighbours. *)
Lemma adjacent_swap (pre : Values) (y x : string) (post : Values) :
  Values_Swap (pre ++ y :: x :: post) (S (length pre)) (length pre)
  = Some (pre ++ x :: y :: post).
Proof.
  unfold Values_Swap.
  destruct (adjacent_lookup pre y x post) as [Hy Hx].
  rewrite Hx. simpl. rewrite Hy. simpl. f_equal. clear Hx Hy.
  induction pre as [|p pre IH]; simpl; [reflexivity | now f_equal].
Qed.

(** The inner loop leaves a URI of another scheme where it is: [Less(j, j-1)]
    is false at once. *)
Lemma inner_stay (v : Values) (j : nat) (x : string) :
  v !! j = Some x -> isHTTPS x = false -> insertionSort_inner v 0 j = Some v.
Proof.
  intros Hx Hs. destruct j as [|j]; simpl; [reflexivity|].
  unfold Values_Less. rewrite Hx. simpl. now rewrite Hs.
Qed.

(** The inner loop carries an [https] URI to the front: [Less(j, j-1)] reads
    the URI being moved, whatever stands before it. *)
Lemma inner_front (pre : Values) (x : string) (post : Values) :
  isHTTPS x = true ->
  insertionSort_inner (pre ++ x :: post) 0 (length pre) = Some (x :: pre ++ post).
Proof.
  intros Hs. revert post.
  induction pre as [|y pre IH] using rev_ind; intros post; [reflexivity|].
  rewrite length_app, Nat.add_1_r, <- !app_assoc. simpl.
  unfold Values_Less.
  destruct (adjacent_lookup pre y x post) as [_ ->]. simpl. rewrite Hs.
  rewrite adjacent_swap. simpl. apply IH.
Qed.

Lemma httpsFirst_length (v : Values) : length (httpsFirst v) = length v.
Proof.
  unfold httpsFirst, other. rewrite length_app, length_rev.
  induction v as [|x v IH]; simpl; [reflexivity|].
  destruct (isHTTPS x); simpl; lia.
Qed.

Lemma httpsFirst_snoc (v : Values) (x : string) :
  httpsFirst (v ++ [x])
  = if isHTTPS x then x :: httpsFirst v else httpsFirst v ++ [x].
Proof.
  unfold httpsFirst, other. rewrite !List.filter_app. simpl.
  destruct (isHTTPS x); simpl.
  - rewrite rev_app_distr, app_nil_r. reflexivity.
  - rewrite !app_nil_r, app_assoc. reflexivity.
Qed.

Lemma inner_step (done : Values) (x : string) (rest : Values) :
  insertionSort_inner (httpsFirst done ++ x :: rest) 0 (length done)
  = Some (httpsFirst (done ++ [x]) ++ rest).
Proof.
  rewrite httpsFirst_snoc. rewrite <- (httpsFirst_length done).
  destruct (isHTTPS x) eqn:Hs.
  - now apply inner_front.
  - rewrite <- app_assoc. apply inner_stay with x; [|exact Hs].
    apply list_lookup_middle. reflexivity.
Qed.

(** The invariant of the outer loop: the part already visited is in the
    order [httpsFirst] gives it. *)
Lemma outer_spec (rest done : Values) :
  insertionSort_outer (length rest) (httpsFirst done ++ rest) 0 (length done)
  = Some (httpsFirst (done ++ rest)).
Proof.
  revert done. induction rest as [|x rest IH]; intros done; simpl.
  - now rewrite !app_nil_r.
  - rewrite inner_step. simpl.
    replace (S (length done)) with (length (done ++ [x]))
      by (rewrite length_app; simpl; lia).
    rewrite IH, <- app_assoc. reflexivity.
Qed.

Lemma insertionSort_httpsFirst (v : Values) :
  insertionSort v 0 (length v) = Some (httpsFirst v).
Proof.
  unfold insertionSort. destruct v as [|x v]; [reflexivity|].
  simpl length. replace (S (length v) - (0 + 1)) with (length v) by lia.
  pose proof (outer_spec v [x]) as Hs.
  assert (E : httpsFirst [x] = [x])
    by (unfold httpsFirst, other; simpl; now destruct (isHTTPS x)).
  rewrite E in Hs. exact Hs.
Qed.

(** [sort.Sort] on a short list of URIs never panics and gives
    [httpsFirst]. *)
Lemma sort_Sort_short (sort_long : Values -> option Values) (v : Values) :
  length v <= insertionSortOnly -> sort_Sort sort_long v = Some (httpsFirst v).
Proof.
  intros Hn. unfold sort_Sort. simpl. unfold Values_Len.
  case_decide; [apply insertionSort_httpsFirst | lia].
Qed.

Lemma httpsFirst_Permutation (v : Values) : httpsFirst v ≡ₚ v.
Proof.
  unfold httpsFirst, other.
  rewrite <- (Permutation_rev (List.filter isHTTPS v)).
  induction v as [|x v IH]; simpl; [reflexivity|].
  destruct (isHTTPS x); simpl.
  - now constructor.
  - rewrite <- Permutation_middle. now constructor.
Qed.

Lemma filter_other_https (v : Values) :
  List.filter other (rev (List.filter isHTTPS v)) = [].
Proof.
  induction v as [|x v IH]; simpl; [reflexivity|].
  destruct (isHTTPS x) eqn:Hs; simpl; [|exact IH].
  rewrite List.filter_app, IH. simpl. unfold other. now rewrite Hs.
Qed.

Lemma filter_other_idem (v : Values) :
  List.filter other (List.filter other v) = List.filter other v.
Proof.
  induction v as [|x v IH]; simpl; [reflexivity|].
  destruct (other x) eqn:Hs; simpl; [|exact IH]. rewrite Hs. now f_equal.
Qed.

(** The order of the URIs of other schemes is that of the source. *)
Lemma httpsFirst_others (v : Values) :
  List.filter other (httpsFirst v) = List.filter other v.
Proof.
  unfold httpsFirst.
  now rewrite List.filter_app, filter_other_https, filter_other_idem.
Qed.

(** In [httpsFirst v] every [https] URI stands before every other one. *)
Lemma httpsFirst_precedes (v : Values) (i j : nat) (x y : string) :
  httpsFirst v !! i = Some x -> httpsFirst v !! j = Some y ->
  isHTTPS x = true -> isHTTPS y = false -> i < j.
Proof.
  unfold httpsFirst. intros Hi Hj Hx Hy.
  set (hs := rev (List.filter isHTTPS v)) in *.
  destruct (decide (i < length hs)) as [Hlt|Hge].
  - destruct (decide (j < length hs)) as [Hj'|]; [|lia].
    rewrite lookup_app_l in Hj by exact Hj'.
    apply list_elem_of_lookup_2, list_elem_of_In in Hj.
    apply in_rev, List.filter_In in Hj. destruct Hj as [_ Hj]. congruence.
  - rewrite lookup_app_r in Hi by lia.
    apply list_elem_of_lookup_2, list_elem_of_In, List.filter_In in Hi.
    destruct Hi as [_ Hi]. unfold other in Hi. rewrite Hx in Hi. discriminate.
Qed.

(** C1 (as the code has it).  A service decoded from a bootstrap document
    with at most [insertionSortOnly] URIs is loaded with its URIs permuted
    so that every [https] URI stands before every URI of another scheme,
    the URIs of other schemes keeping the order of the document. *)
Theorem UnmarshalJSON_https_first
    (json_Unmarshal : string -> error + Values * Values)
    (sort_long : Values -> option Values)
    (s : Service) (b : string) (entries urls : Values) :
  json_Unmarshal b = inr (entries, urls) ->
  length urls <= insertionSortOnly ->
  exists sorted : Values,
    UnmarshalJSON json_Unmarshal sort_long s b = Some (None, (entries, sorted))
    /\ sorted ≡ₚ urls
    /\ (forall i j x y, sorted !! i = Some x -> sorted !! j = Some y ->
          isHTTPS x = true -> isHTTPS y = false -> i < j)
    /\ List.filter other sorted = List.filter other urls.
Proof.
  intros Hdec Hn. exists (httpsFirst urls). unfold UnmarshalJSON.
  rewrite Hdec. simpl. rewrite (sort_Sort_short sort_long urls Hn). simpl.
  split; [reflexivity|]. split; [apply httpsFirst_Permutation|].
  split; [apply httpsFirst_precedes | apply httpsFirst_others].
Qed.

(** The theorem at a document with four URIs of three schemes. *)
Lemma UnmarshalJSON_https_first_witness :
  exists sorted : Values,
    UnmarshalJSON
      (fun _ => inr (["com"], ["http://a.example"; "https://b.example";
                               "ftp://c.example"; "https://d.example"]))
      (fun v => Some v) ([], []) "document"
    = Some (None, (["com"], sorted))
    /\ sorted ≡ₚ ["http://a.example"; "https://b.example";
                  "ftp://c.example"; "https://d.example"]
    /\ (forall i j x y, sorted !! i = Some x -> sorted !! j = Some y ->
          isHTTPS x = true -> isHTTPS y = false -> i < j)
    /\ List.filter other sorted
       = List.filter other ["http://a.example"; "https://b.example";
                            "ftp://c.example"; "https://d.example"].
Proof.
  apply (UnmarshalJSON_https_first _ _ ([], []) "document" ["com"]).
  - reflexivity.
  - unfold insertionSortOnly. simpl. lia.
Defined.

(** C1 (as stated) fails.  A service with two [https] URIs is loaded with
    the two exchanged, so the order within the [https] class is not that of
    the document; sorting the loaded list once more exchanges them back, so
    the sort is not idempotent. *)
Lemma UnmarshalJSON_not_stable :
  let urls := ["https://a.example"; "https://b.example"] in
  let sorted := ["https://b.example"; "https://a.example"] in
  UnmarshalJSON (fun _ => inr (["com"], urls)) (fun v => Some v) ([], []) "document"
  = Some (None, (["com"], sorted))
  /\ List.filter isHTTPS sorted <> List.filter isHTTPS urls
  /\ sort_Sort (fun v => Some v) sorted = Some urls
  /\ sort_Sort (fun v => Some v) sorted <> Some sorted.
Proof.
  repeat split; try reflexivity; vm_compute; discriminate.
Qed.

End BootstrapFacts.

(** ** The client: one fetch, the candidate loop, the query *)

Module ClientFacts.
Import GoLib Bootstrap Client.

Section WithEnv.
Context `{Env}.

(** What one fetch adds to the trace: nothing when the request cannot be
    built, the request otherwise. *)
Lemma fetch_trace {T : Type} (decode : string -> T -> option string * T)
    (c : Client) (uri : string) (o : T) (w : World) :
  let w' := (fetchAndUnmarshal decode c uri o w).2 in
  (w' = w /\ exists e, http_NewRequest "GET" uri = inl e)
  \/ (exists req, http_NewRequest "GET" uri = inr req
                  /\ trace w' = trace w ++ [EvDo req]).
Proof.
  unfold fetchAndUnmarshal.
  destruct (http_NewRequest "GET" uri) as [e|req]; simpl; [left; eauto|].
  right. exists req. split; [reflexivity|].
  destruct (cli_Do (cacheDir c) req (net w)) as [[e|resp] n']; simpl;
    [reflexivity|].
  now destruct (decode (Body resp) o).
Qed.

(** The requests of the candidate loop: each is the request built for one
    candidate's URI, a slash, the segment, a slash and the identifier. *)
Lemma query_loop_trace (c : Client) (segment : string) (id : identifier)
    (uris : list string) (o : Object) (w : World) :
  exists evs : list event,
    trace (query_loop c segment id uris o w).2 = trace w ++ evs
    /\ Forall (fun e => exists uri req,
                 uri ∈ uris
                 /\ http_NewRequest "GET" (uri +:+ "/" +:+ segment +:+ "/" +:+ fmt_v id)
                    = inr req
                 /\ e = EvDo req) evs.
Proof.
  revert o w. induction uris as [|uri rest IH]; intros o w; simpl.
  - exists []. now rewrite app_nil_r.
  - pose proof (fetch_trace json_Decode_object c (queryURL uri segment id) o w) as Hf.
    destruct (fetchAndUnmarshal json_Decode_object c (queryURL uri segment id) o w)
      as [[err o1] w1]. simpl in Hf.
    assert (Hstep : exists evs1, trace w1 = trace w ++ evs1
              /\ Forall (fun e => exists uri' req, uri' ∈ uri :: rest
                  /\ http_NewRequest "GET"
                       (uri' +:+ "/" +:+ segment +:+ "/" +:+ fmt_v id) = inr req
                  /\ e = EvDo req) evs1).
    { destruct Hf as [[-> _]|[req [Hreq Ht]]].
      - exists []. now rewrite app_nil_r.
      - exists [EvDo req]. split; [exact Ht|].
        constructor; [|constructor]. exists uri, req.
        split; [left|]. now split. }
    destruct Hstep as [evs1 [Ht1 Hall1]].
    destruct err as [e|]; simpl; [|now exists evs1].
    destruct (IH o1 w1) as [evs2 [Ht2 Hall2]].
    exists (evs1 ++ evs2). split.
    + now rewrite Ht2, Ht1, app_assoc.
    + apply Forall_app. split; [exact Hall1|].
      eapply Forall_impl; [exact Hall2|]. simpl.
      intros e' (uri' & req & Hin & Hreq & ->). exists uri', req.
      split; [now right | now split].
Qed.

(** C2 (as the code has it).  In the candidate loop of [Client.query] the
    first candidate whose fetch succeeds ends the loop with a nil error:
    every candidate before it has failed, and the target and the world are
    those its fetch leaves, so no later candidate is tried.  When every
    candidate fails the loop returns the error [no data available for
    <identifier>]; no attempt's own error is returned. *)
Theorem query_loop_first_success (c : Client) (segment : string) (id : identifier)
    (uris : list string) (o : Object) (w : World) :
  match query_loop c segment id uris o w with
  | (None, o', w') =>
      exists pre u post o0 w0,
        uris = pre ++ u :: post
        /\ AllFail c segment id pre o w o0 w0
        /\ fetchAndUnmarshal json_Decode_object c (queryURL u segment id) o0 w0
           = (None, o', w')
  | (Some e, o', w') =>
      e = Errorf ("no data available for " +:+ fmt_v id)
      /\ AllFail c segment id uris o w o' w'
  end.
Proof.
  revert o w. induction uris as [|uri rest IH]; intros o w; simpl.
  - split; [reflexivity | constructor].
  - destruct (fetchAndUnmarshal json_Decode_object c (queryURL uri segment id) o w)
      as [[[e|] o1] w1] eqn:Hf.
    + specialize (IH o1 w1).
      destruct (query_loop c segment id rest o1 w1) as [[[e'|] o'] w'].
      * destruct IH as [-> Hall]. split; [reflexivity|].
        econstructor; eassumption.
      * destruct IH as (pre & u & post & o0 & w0 & -> & Hall & Hu).
        exists (uri :: pre), u, post, o0, w0. split; [reflexivity|].
        split; [econstructor; eassumption | exact Hu].
    + exists [], uri, rest, o, w. split; [reflexivity|].
      split; [constructor | exact Hf].
Qed.

(** [sort.Sort] leaves a single candidate alone. *)
Lemma sort_Sort_single (u : string) : sort_Sort sort_long [u] = Some [u].
Proof. reflexivity. Qed.

(** The only error of the candidate loop. *)
Lemma query_loop_error (c : Client) (segment : string) (id : identifier)
    (uris : list string) (o : Object) (w : World) (e : error) :
  (query_loop c segment id uris o w).1.1 = Some e ->
  e = Errorf ("no data available for " +:+ fmt_v id).
Proof.
  revert o w. induction uris as [|uri rest IH]; intros o w; simpl.
  - now intros [= <-].
  - destruct (fetchAndUnmarshal json_Decode_object c (queryURL uri segment id) o w)
      as [[[e'|] o1] w1]; [apply IH | discriminate].
Qed.

(** After the candidates are known the trace only grows, and an error is
    that of the exhausted loop. *)
Lemma candidates_result (c : Client) (k : kind) (id : identifier) (o : Object)
    (uris : list string) (w : World) :
  exists evs,
    trace (candidates c k id o uris w).2 = trace w ++ evs
    /\ Forall (fun e => exists req, e = EvDo req) evs
    /\ forall e o', (candidates c k id o uris w).1 = Return (Some e, o') ->
                    e = Errorf ("no data available for " +:+ fmt_v id).
Proof.
  unfold candidates. destruct (sort_Sort sort_long uris) as [sorted|]; simpl.
  - destruct (query_loop_trace c (kindToSegment k) id sorted o w) as [evs [Ht Hall]].
    pose proof (query_loop_error c (kindToSegment k) id sorted o w) as Hr.
    destruct (query_loop c (kindToSegment k) id sorted o w) as [[err o1] w1].
    simpl in *. exists evs. split; [exact Ht|]. split.
    + eapply Forall_impl; [exact Hall|]. simpl.
      intros e (uri & req & _ & _ & ->). now exists req.
    + intros e o' [= -> ->]. now apply Hr.
  - exists []. rewrite app_nil_r. split; [reflexivity|].
    split; [constructor | discriminate].
Qed.

(** C4 (as the code has it).  At the single-fetch layer,
    [Client.fetchAndUnmarshal], a response is classified by its body alone.
    Once the request is built and answered, a body that decodes gives
    success with the target filled from it, and a body that does not decode
    gives the decoder's error, whatever the status code (2xx, 404 or any
    other) and whatever the media type of the response. *)
Theorem fetch_classified_by_body {T : Type}
    (decode : string -> T -> option string * T)
    (c : Client) (uri : string) (o : T) (w : World)
    (req : Request) (resp : Response) (n' : NetState) :
  http_NewRequest "GET" uri = inr req ->
  cli_Do (cacheDir c) req (net w) = (inr resp, n') ->
  (forall o', decode (Body resp) o = (None, o') ->
     fetchAndUnmarshal decode c uri o w
     = (None, o', {| net := n'; trace := trace w ++ [EvDo req] |}))
  /\ (forall e o', decode (Body resp) o = (Some e, o') ->
     fetchAndUnmarshal decode c uri o w
     = (Some (Foreign FromDecode e), o', {| net := n'; trace := trace w ++ [EvDo req] |})).
Proof.
  intros Hreq Hdo. unfold fetchAndUnmarshal. rewrite Hreq, Hdo.
  split; [intros o' Hd | intros e o' Hd]; now rewrite Hd.
Qed.

(** The bootstrap path of [Client.query] once the document is decoded. *)
Lemma query_bootstrap (c : Client) (k : kind) (id : identifier) (o : Object)
    (w : World) (r : ServiceRegistry) (w1 : World) :
  Host c = "" ->
  fetchAndUnmarshal json_Decode_registry c
    (fmt_Sprintf (Bootstrap c) (kind_string k)) emptyRegistry w = (None, r, w1) ->
  query c k id o w =
    let w2 := {| net := net w1; trace := trace w1 ++ [EvMatch (matcherOf k) r id] |} in
    match matcher (matcherOf k) r id with
    | Panic => (Panic, w1)
    | Return (uris, Some e) => (Return (Some (Foreign FromMatcher e), o), w2)
    | Return (uris, None) =>
        if decide (length uris = 0)
        then (Return (Some (Errorf ("no matches for " +:+ fmt_v id)), o), w2)
        else candidates c k id o uris w2
    end.
Proof.
  intros Hh Hf. unfold query. rewrite decide_True by exact Hh.
  now rewrite Hf.
Qed.

(** The same for the first revision. *)
Lemma query_bootstrap_rev1 (c : ClientRev1.Client) (k : ClientRev1.kind)
    (id : identifier) (o : Object) (w : World) (r : ServiceRegistry) (w1 : World) :
  ClientRev1.fetchAndUnmarshal json_Decode_registry c
    (fmt_Sprintf (ClientRev1.rdapEndpoint c) (ClientRev1.kind_string k))
    emptyRegistry w = (None, r, w1) ->
  matcher (ClientRev1.matcherOf k) r id = Return ([], None) ->
  ClientRev1.query c k id o w =
    (Return (Some (Errorf ("no matches for " +:+ fmt_v id)), o),
     {| net := net w1; trace := trace w1 ++ [EvMatch (ClientRev1.matcherOf k) r id] |}).
Proof.
  intros Hf Hm. unfold ClientRev1.query. rewrite Hf, Hm. reflexivity.
Qed.

Lemma no_matches_no_data (s : string) :
  Errorf ("no matches for " +:+ s) <> Errorf ("no data available for " +:+ s).
Proof. simpl. discriminate. Qed.

(** C8.  When the bootstrap document is read and the matcher returns no
    candidate and no error, the query returns the error [no matches for
    <identifier>] with the target untouched and no RDAP server asked: the
    trace ends with the matcher call.  That error is made by [fmt.Errorf]
    here; it is none of the errors handed up from the transport, the decoder
    or the matcher, and it is not the error of an exhausted candidate loop.
    The first revision of [Client.query] does the same. *)
Theorem query_no_matches (c : Client) (k : kind) (id : identifier) (o : Object)
    (w : World) (r : ServiceRegistry) (w1 : World) (uris : list string) :
  Host c = "" ->
  fetchAndUnmarshal json_Decode_registry c
    (fmt_Sprintf (Bootstrap c) (kind_string k)) emptyRegistry w = (None, r, w1) ->
  matcher (matcherOf k) r id = Return (uris, None) ->
  length uris = 0 ->
  query c k id o w
  = (Return (Some (Errorf ("no matches for " +:+ fmt_v id)), o),
     {| net := net w1; trace := trace w1 ++ [EvMatch (matcherOf k) r id] |})
  /\ (forall from m, Errorf ("no matches for " +:+ fmt_v id) <> Foreign from m)
  /\ Errorf ("no matches for " +:+ fmt_v id)
     <> Errorf ("no data available for " +:+ fmt_v id)
  /\ (forall (c1 : ClientRev1.Client) (k1 : ClientRev1.kind) w0 r1 w2,
        ClientRev1.fetchAndUnmarshal json_Decode_registry c1
          (fmt_Sprintf (ClientRev1.rdapEndpoint c1) (ClientRev1.kind_string k1))
          emptyRegistry w0 = (None, r1, w2) ->
        matcher (ClientRev1.matcherOf k1) r1 id = Return ([], None) ->
        ClientRev1.query c1 k1 id o w0
        = (Return (Some (Errorf ("no matches for " +:+ fmt_v id)), o),
           {| net := net w2;
              trace := trace w2 ++ [EvMatch (ClientRev1.matcherOf k1) r1 id] |})).
Proof.
  intros Hh Hf Hm Hn. split.
  - rewrite (query_bootstrap c k id o w r w1 Hh Hf), Hm. simpl.
    now rewrite decide_True by exact Hn.
  - split; [discriminate|]. split; [apply no_matches_no_data|].
    intros c1 k1 w0 r1 w2. apply query_bootstrap_rev1.
Qed.

(** C3 (as the code has it).  [Client.query] compares the version of the
    bootstrap document with nothing.  A document of any version other than
    the supported one, once fetched and decoded, is handed to the matcher,
    whose call is the next entry of the trace; from there the query fails
    only with the matcher's own error, with [no matches for <identifier>] or
    with [no data available for <identifier>]. *)
Theorem query_matches_any_version (supported : string)
    (c : Client) (k : kind) (id : identifier) (o : Object) (w : World)
    (r : ServiceRegistry) (w1 : World) (uris : list string) (merr : option string) :
  Host c = "" ->
  fetchAndUnmarshal json_Decode_registry c
    (fmt_Sprintf (Bootstrap c) (kind_string k)) emptyRegistry w = (None, r, w1) ->
  Version r <> supported ->
  matcher (matcherOf k) r id = Return (uris, merr) ->
  (exists evs, trace (query c k id o w).2
               = trace w1 ++ EvMatch (matcherOf k) r id :: evs)
  /\ (forall e o', (query c k id o w).1 = Return (Some e, o') ->
        (exists m, merr = Some m /\ e = Foreign FromMatcher m)
        \/ e = Errorf ("no matches for " +:+ fmt_v id)
        \/ e = Errorf ("no data available for " +:+ fmt_v id)).
Proof.
  intros Hh Hf _ Hm. rewrite (query_bootstrap c k id o w r w1 Hh Hf), Hm.
  simpl. destruct merr as [m|]; simpl.
  - split; [now exists [] |]. intros e o' [= <- _]. left. now exists m.
  - case_decide; simpl.
    + split; [now exists [] |]. intros e o' [= <- _]. right. now left.
    + set (w2 := {| net := net w1; trace := _ |}).
      destruct (candidates_result c k id o uris w2) as (evs & Ht & _ & He).
      split.
      * exists evs. rewrite Ht. unfold w2. simpl. now rewrite <- app_assoc.
      * intros e o' Hq. right. right. eapply He. exact Hq.
Qed.

(** C5.  With a [Host] override the query is the candidate loop over that
    host alone: it sends at most one request, the one for the host's query
    URL, and calls no matcher; the bootstrap document is not requested.
    With an empty [Host] the bootstrap document for the kind is fetched
    first; its error ends the query, and once it is decoded the matcher is
    called on it and its URIs, when it gives some, are the candidates.  The
    matcher is the method of the decoded registry for the kind,
    [MatchDomain] on the name, [MatchAS] on the number or [MatchIPNetwork]
    on the network, and from its two results the rest of the path follows:
    its error ends the query, no URI gives [no matches for <identifier>],
    and its URIs go to the sort and the candidate loop. *)
Theorem query_host_override (c : Client) (k : kind) (id : identifier)
    (o : Object) (w : World) :
  (Host c <> "" ->
     query c k id o w = candidates c k id o [Host c] w
     /\ candidates c k id o [Host c] w
        = (let '(err, o', w') :=
             fetchAndUnmarshal json_Decode_object c
               (Host c +:+ "/" +:+ kindToSegment k +:+ "/" +:+ fmt_v id) o w in
           (Return (match err with
                    | Some _ => Some (Errorf ("no data available for " +:+ fmt_v id))
                    | None => None
                    end, o'), w'))
     /\ exists evs, trace (query c k id o w).2 = trace w ++ evs
          /\ length evs <= 1
          /\ Forall (fun e => exists req,
                http_NewRequest "GET"
                  (Host c +:+ "/" +:+ kindToSegment k +:+ "/" +:+ fmt_v id) = inr req
                /\ e = EvDo req) evs)
  /\ (Host c = "" ->
     exists err r w1,
       fetchAndUnmarshal json_Decode_registry c
         (fmt_Sprintf (Bootstrap c) (kind_string k)) emptyRegistry w = (err, r, w1)
       /\ match err with
          | Some e => query c k id o w = (Return (Some e, o), w1)
          | None =>
              (forall uris merr,
                 matcher (matcherOf k) r id = Return (uris, merr) ->
                 (exists evs, trace (query c k id o w).2
                              = trace w1 ++ EvMatch (matcherOf k) r id :: evs)
                 /\ (merr = None -> length uris <> 0 ->
                     query c k id o w
                     = candidates c k id o uris
                         {| net := net w1;
                            trace := trace w1 ++ [EvMatch (matcherOf k) r id] |}))
              /\ (forall m uris merr,
                    (k = dns /\ m = MDomain
                     /\ exists s, id = IdString s /\ MatchDomain r s = (uris, merr))
                    \/ (k = asn /\ m = MAS
                        /\ exists n, id = IdUint64 n /\ MatchAS r n = (uris, merr))
                    \/ ((k = ipv4 \/ k = ipv6) /\ m = MIPNetwork
                        /\ exists n, id = IdIPNet n
                                     /\ MatchIPNetwork r n = (uris, merr)) ->
                    query c k id o w
                    = let w2 := {| net := net w1;
                                   trace := trace w1 ++ [EvMatch m r id] |} in
                      match merr with
                      | Some e => (Return (Some (Foreign FromMatcher e), o), w2)
                      | None =>
                          if decide (length uris = 0)
                          then (Return (Some (Errorf ("no matches for " +:+ fmt_v id)),
                                        o), w2)
                          else candidates c k id o uris w2
                      end)
          end).
Proof.
  split.
  - intros Hh.
    assert (Hq : query c k id o w = candidates c k id o [Host c] w)
      by (unfold query; now rewrite decide_False by exact Hh).
    split; [exact Hq|]. rewrite Hq. unfold candidates.
    rewrite sort_Sort_single. simpl. unfold queryURL.
    pose proof (fetch_trace json_Decode_object c
      (Host c +:+ "/" +:+ kindToSegment k +:+ "/" +:+ fmt_v id) o w) as Ht.
    destruct (fetchAndUnmarshal json_Decode_object c
      (Host c +:+ "/" +:+ kindToSegment k +:+ "/" +:+ fmt_v id) o w)
      as [[err o1] w1]. simpl in Ht.
    split; [now destruct err|].
    assert (Hw : (let '(err0, object', w') :=
                    match err with
                    | Some _ =>
                        (Some (Errorf ("no data available for " +:+ fmt_v id)), o1, w1)
                    | None => (None, o1, w1)
                    end in (Return (err0, object'), w')).2 = w1)
      by now destruct err.
    rewrite Hw. destruct Ht as [[-> _]|[req [Hreq Ht]]].
    + exists []. rewrite app_nil_r. simpl. repeat split; [lia | constructor].
    + exists [EvDo req]. split; [exact Ht|]. split; [simpl; lia|].
      constructor; [|constructor]. now exists req.
  - intros Hh.
    destruct (fetchAndUnmarshal json_Decode_registry c
      (fmt_Sprintf (Bootstrap c) (kind_string k)) emptyRegistry w)
      as [[err r] w1] eqn:Hf.
    exists err, r, w1. split; [reflexivity|].
    destruct err as [e|].
    + unfold query. rewrite decide_True by exact Hh. now rewrite Hf.
    + split.
      * intros uris merr Hm.
        rewrite (query_bootstrap c k id o w r w1 Hh Hf), Hm. simpl.
        destruct merr as [m|]; simpl.
        -- split; [now exists [] | discriminate].
        -- case_decide; simpl.
           ++ split; [now exists [] | congruence].
           ++ split; [|reflexivity].
              set (w2 := {| net := net w1; trace := _ |}).
              destruct (candidates_result c k id o uris w2) as (evs & Ht & _).
              exists evs. rewrite Ht. unfold w2. simpl. now rewrite <- app_assoc.
      * intros m uris merr Hcase.
        rewrite (query_bootstrap c k id o w r w1 Hh Hf).
        destruct Hcase as [(-> & -> & s & -> & Hm)
                          |[(-> & -> & n & -> & Hm)
                           |(Hk & -> & n & -> & Hm)]].
        -- simpl. rewrite Hm. reflexivity.
        -- simpl. rewrite Hm. reflexivity.
        -- destruct Hk as [-> | ->]; simpl; rewrite Hm; reflexivity.
Qed.



End WithEnv.

(** C10.  [Client.fetchAndUnmarshal] reads neither the status code nor the
    headers of the response: putting every response through a function that
    keeps its body changes nothing of the error, the target or the world it
    returns.  It succeeds exactly when the request is built, the exchange
    returns a response and the body decodes into the target; its error is the
    one of the request construction, of the exchange or of the decoder. *)
Theorem fetchAndUnmarshal_body_only (E : Env) (f : Response -> Response)
    {T : Type} (decode : string -> T -> option string * T)
    (c : Client) (uri : string) (o : T) (w : WorldOf (@NetState E)) :
  (forall resp, Body (f resp) = Body resp) ->
  @fetchAndUnmarshal (withResponses f E) T decode c uri o w
  = @fetchAndUnmarshal E T decode c uri o w
  /\ ((@fetchAndUnmarshal E T decode c uri o w).1.1 = None <->
      exists req resp n',
        @http_NewRequest E "GET" uri = inr req
        /\ @cli_Do E (cacheDir c) req (net w) = (inr resp, n')
        /\ (decode (Body resp) o).1 = None)
  /\ (forall e, (@fetchAndUnmarshal E T decode c uri o w).1.1 = Some e ->
        (exists m, @http_NewRequest E "GET" uri = inl m /\ e = Foreign FromNewRequest m)
        \/ (exists req m n',
              @http_NewRequest E "GET" uri = inr req
              /\ @cli_Do E (cacheDir c) req (net w) = (inl m, n')
              /\ e = Foreign FromDo m)
        \/ (exists req resp n' m,
              @http_NewRequest E "GET" uri = inr req
              /\ @cli_Do E (cacheDir c) req (net w) = (inr resp, n')
              /\ (decode (Body resp) o).1 = Some m
              /\ e = Foreign FromDecode m)).
Proof.
  intros Hbody. unfold fetchAndUnmarshal. simpl.
  destruct (@http_NewRequest E "GET" uri) as [m|req].
  { split; [reflexivity|]. split.
    - split; [discriminate | now intros (? & ? & ? & ? & _)].
    - intros e [= <-]. left. now exists m. }
  destruct (@cli_Do E (cacheDir c) req (net w)) as [[m|resp] n'] eqn:Hdo.
  { split; [reflexivity|]. split.
    - split; [discriminate|]. intros (? & ? & ? & [= <-] & Hd & _).
      congruence.
    - intros e [= <-]. right. left. now exists req, m, n'. }
  rewrite Hbody. split; [reflexivity|].
  destruct (decode (Body resp) o) as [[m|] o'] eqn:Hdec; simpl; split.
  - split; [discriminate|].
    intros (? & resp' & ? & [= <-] & Hd' & Hd).
    rewrite Hdo in Hd'. injection Hd' as <- _.
    rewrite Hdec in Hd. discriminate Hd.
  - intros e [= <-]. right. right. exists req, resp, n', m.
    rewrite Hdec. auto.
  - split; [|reflexivity]. intros _. exists req, resp, n'.
    rewrite Hdec. auto.
  - discriminate.
Qed.

(** *** The theorems run on the test doubles *)

Import Doubles.

(** C2 (as stated) fails.  With the candidates of the test [it should store
    the last error (not found)], the first cannot be made a request and the
    second is answered [404] without a body: the last attempt fails with the
    decoder's error [EOF], and the loop returns [no data available for
    example.com], not that error. *)
Lemma query_loop_drops_last_error :
  let c := NewClient "cache" in
  let id := IdString "example.com" in
  let w := start tt in
  let w' := {| net := tt;
               trace := [EvDo (GET "https://rdap.beta.registro.br/domain/example.com")] |} in
  @fetchAndUnmarshal notFoundServer _ (@json_Decode_object notFoundServer) c
    (@queryURL notFoundServer "abc%" "domain" id) "" w
  = (Some (Foreign FromNewRequest "invalid URL escape"), "", w)
  /\ @fetchAndUnmarshal notFoundServer _ (@json_Decode_object notFoundServer) c
       (@queryURL notFoundServer "https://rdap.beta.registro.br" "domain" id) "" w
     = (Some (Foreign FromDecode "EOF"), "", w')
  /\ @query_loop notFoundServer c "domain" id
       ["abc%"; "https://rdap.beta.registro.br"] "" w
     = (Some (Errorf "no data available for example.com"), "", w')
  /\ Errorf "no data available for example.com"
     <> Foreign FromDecode "EOF".
Proof. repeat split; try reflexivity. discriminate. Qed.

(** C3 (as stated) fails.  The bootstrap document has version [1.0x], not
    [1.0]; the matcher is called on it all the same and the query succeeds
    with the answer of the server the matcher gave. *)
Lemma query_runs_on_other_version :
  let id := IdString "example.com" in
  Version otherVersion <> "1.0"
  /\ @query rdapServer (NewClient "cache") dns id "" (start tt)
     = (Return (None, "{}"),
        {| net := tt;
           trace := [EvDo (GET "https://data.iana.org/rdap/dns.json");
                     EvMatch MDomain otherVersion id;
                     EvDo (GET "https://rdap.beta.registro.br/domain/example.com")] |}).
Proof. split; [discriminate | reflexivity]. Qed.

(** The theorem of C3 at that document. *)
Lemma query_matches_any_version_witness :
  let id := IdString "example.com" in
  let q := @query rdapServer (NewClient "cache") dns id "" (start tt) in
  (exists evs, trace q.2
               = [EvDo (GET "https://data.iana.org/rdap/dns.json")]
                 ++ EvMatch MDomain otherVersion id :: evs)
  /\ (forall e o', q.1 = Return (Some e, o') ->
        (exists m, None = Some m /\ e = Foreign FromMatcher m)
        \/ e = Errorf ("no matches for " +:+ @fmt_v rdapServer id)
        \/ e = Errorf ("no data available for " +:+ @fmt_v rdapServer id)).
Proof.
  apply (@query_matches_any_version rdapServer "1.0" (NewClient "cache") dns
           (IdString "example.com") "" (start tt) otherVersion
           {| net := tt; trace := [EvDo (GET "https://data.iana.org/rdap/dns.json")] |}
           ["https://rdap.beta.registro.br"] None).
  - reflexivity.
  - reflexivity.
  - discriminate.
  - reflexivity.
Defined.

(** C4 (as stated) fails.  A response with status [404] and media type
    [text/html] whose body is a JSON object is a success of the fetch, not a
    not-found error and not an unexpected response. *)
Lemma fetch_accepts_error_page :
  @fetchAndUnmarshal htmlServer _ (@json_Decode_object htmlServer)
    (NewClient "cache") "https://rdap.beta.registro.br/domain/example.com" ""
    (start tt)
  = (None, "{}",
     {| net := tt;
        trace := [EvDo (GET "https://rdap.beta.registro.br/domain/example.com")] |}).
Proof. reflexivity. Qed.

(** The theorem of C4 at that response. *)
Lemma fetch_classified_by_body_witness :
  let url := "https://rdap.beta.registro.br/domain/example.com" in
  let w' := {| net := tt; trace := [] ++ [EvDo (GET url)] |} in
  (forall o', @json_Decode_object htmlServer "{}" "" = (None, o') ->
     @fetchAndUnmarshal htmlServer _ (@json_Decode_object htmlServer)
       (NewClient "cache") url "" (start tt) = (None, o', w'))
  /\ (forall e o', @json_Decode_object htmlServer "{}" "" = (Some e, o') ->
     @fetchAndUnmarshal htmlServer _ (@json_Decode_object htmlServer)
       (NewClient "cache") url "" (start tt) = (Some (Foreign FromDecode e), o', w')).
Proof.
  apply (@fetch_classified_by_body htmlServer _ (@json_Decode_object htmlServer)
           (NewClient "cache") "https://rdap.beta.registro.br/domain/example.com"
           "" (start tt)
           (GET "https://rdap.beta.registro.br/domain/example.com")
           {| StatusCode := 404; Header := [("Content-Type", ["text/html"])];
              Body := "{}" |} tt).
  - reflexivity.
  - reflexivity.
Defined.

(** The theorem of C5 run both ways for [example.com].  With an override:
    one request, to the override host, and nothing else.  With [Host]
    empty: the request for the bootstrap document, the call of
    [MatchDomain] on the registry decoded from it, and the request to the
    server that call returned. *)
Lemma query_host_override_witness :
  @query rdapServer override dns (IdString "example.com") "" (start tt)
  = (Return (None, "{}"),
     {| net := tt;
        trace := [EvDo (GET "https://rdap.registro.br/domain/example.com")] |})
  /\ @query rdapServer (NewClient "cache") dns (IdString "example.com") "" (start tt)
     = (Return (None, "{}"),
        {| net := tt;
           trace := [EvDo (GET "https://data.iana.org/rdap/dns.json");
                     EvMatch MDomain otherVersion (IdString "example.com");
                     EvDo (GET "https://rdap.beta.registro.br/domain/example.com")] |}).
Proof.
  split.
  - destruct (proj1 (@query_host_override rdapServer override dns
                       (IdString "example.com") "" (start tt)))
      as (Hq & Hc & _); [discriminate|].
    rewrite Hq, Hc. reflexivity.
  - destruct (proj2 (@query_host_override rdapServer (NewClient "cache") dns
                       (IdString "example.com") "" (start tt)) eq_refl)
      as (err & r & w1 & Hf & Hpath).
    assert (Hrun : @fetchAndUnmarshal rdapServer _ (@json_Decode_registry rdapServer)
                     (NewClient "cache")
                     (@fmt_Sprintf rdapServer (Bootstrap (NewClient "cache"))
                        (kind_string dns))
                     emptyRegistry (start tt)
                   = (None, otherVersion,
                      {| net := tt;
                         trace := [EvDo (GET "https://data.iana.org/rdap/dns.json")] |}))
      by reflexivity.
    rewrite Hrun in Hf. injection Hf as <- <- <-.
    destruct Hpath as [_ Hpath].
    rewrite (Hpath MDomain ["https://rdap.beta.registro.br"] None).
    + reflexivity.
    + left. split; [reflexivity|]. split; [reflexivity|].
      exists "example.com". split; reflexivity.
Defined.


(** The theorem of C8 for a name under [org], which the registry of the
    double does not serve. *)
Lemma query_no_matches_witness :
  let id := IdString "example.org" in
  let w1 := {| net := tt; trace := [EvDo (GET "https://data.iana.org/rdap/dns.json")] |} in
  @query rdapServer (NewClient "cache") dns id "" (start tt)
  = (Return (Some (Errorf ("no matches for " +:+ @fmt_v rdapServer id)), ""),
     {| net := net w1; trace := trace w1 ++ [EvMatch (matcherOf dns) otherVersion id] |})
  /\ (forall from m, Errorf ("no matches for " +:+ @fmt_v rdapServer id) <> Foreign from m)
  /\ Errorf ("no matches for " +:+ @fmt_v rdapServer id)
     <> Errorf ("no data available for " +:+ @fmt_v rdapServer id)
  /\ (forall (c1 : ClientRev1.Client) (k1 : ClientRev1.kind) w0 r1 w2,
        @ClientRev1.fetchAndUnmarshal rdapServer _ (@json_Decode_registry rdapServer) c1
          (@fmt_Sprintf rdapServer (ClientRev1.rdapEndpoint c1) (ClientRev1.kind_string k1))
          emptyRegistry w0 = (None, r1, w2) ->
        @matcher rdapServer (ClientRev1.matcherOf k1) r1 id = Return ([], None) ->
        @ClientRev1.query rdapServer c1 k1 id "" w0
        = (Return (Some (Errorf ("no matches for " +:+ @fmt_v rdapServer id)), ""),
           {| net := net w2;
              trace := trace w2 ++ [EvMatch (ClientRev1.matcherOf k1) r1 id] |})).
Proof.
  apply (@query_no_matches rdapServer (NewClient "cache") dns
           (IdString "example.org") "" (start tt) otherVersion
           {| net := tt; trace := [EvDo (GET "https://data.iana.org/rdap/dns.json")] |}
           []).
  - reflexivity.
  - reflexivity.
  - reflexivity.
  - reflexivity.
Defined.

(** The theorem of C10 for a good answer turned into an error page. *)
Lemma fetchAndUnmarshal_body_only_witness :
  let url := "https://rdap.beta.registro.br/domain/example.com" in
  @fetchAndUnmarshal (withResponses asErrorPage rdapServer) string
    (@json_Decode_object rdapServer) (NewClient "cache") url "" (start tt)
  = @fetchAndUnmarshal rdapServer string
      (@json_Decode_object rdapServer) (NewClient "cache") url "" (start tt)
  /\ @fetchAndUnmarshal rdapServer string
       (@json_Decode_object rdapServer) (NewClient "cache") url "" (start tt)
     = (None, "{}", {| net := tt; trace := [EvDo (GET url)] |}).
Proof.
  split; [|reflexivity].
  apply (@fetchAndUnmarshal_body_only rdapServer asErrorPage string
           (@json_Decode_object rdapServer) (NewClient "cache")
           "https://rdap.beta.registro.br/domain/example.com" "" (start tt)).
  reflexivity.
Defined.

End ClientFacts.

(** ** The handlers *)

Module HandlerFacts.
Import GoLib Handler.

Section WithEnv.
Context `{Env}.

(** The result of the loop of [Handler.Query] over any handlers: that of the
    first one that settles, the ones before having declined; [false] and a
    nil error when all decline. *)
Lemma Query_loop_spec (hs : list (string -> World -> result))
    (object : string) (ok : bool) (w : World) :
  (exists pre hd post w0,
     hs = pre ++ hd :: post
     /\ Declined object pre w w0
     /\ settles (hd object w0)
     /\ Query_loop hs object ok w = hd object w0)
  \/ (exists w',
        Declined object hs w w'
        /\ Query_loop hs object ok w
           = (match hs with [] => ok | _ => false end, None, w')).
Proof.
  revert ok w. induction hs as [|hd rest IH]; intros ok w.
  - right. exists w. split; [constructor | reflexivity].
  - simpl. destruct (hd object w) as [[ok' err] w1] eqn:Hhd.
    destruct err as [e|].
    { left. exists [], hd, rest, w. rewrite Hhd.
      repeat split; [constructor | right; discriminate]. }
    destruct ok'.
    { left. exists [], hd, rest, w. rewrite Hhd.
      repeat split; [constructor | now left]. }
    destruct (IH false w1) as [(pre & hd' & post & w0 & -> & Hd & Hs & Hq)
                              |(w' & Hd & Hq)].
    + left. exists (hd :: pre), hd', post, w0.
      repeat split; [econstructor; eassumption | exact Hs | exact Hq].
    + right. exists w'. split; [econstructor; eassumption|].
      rewrite Hq. now destruct rest.
Qed.

Lemma print_claims {R : Type} (k : hkind)
    (toText : R -> Writer -> State -> option Error * State)
    (h : Handler) (rec : R) (w : World) :
  (print k toText h rec w).1.1 = true
  /\ exists evs, trace (print k toText h rec w).2 = trace w ++ evs
                 /\ Forall (fun e => eventKind e = k) evs.
Proof.
  unfold print. destruct (toText rec (Writer_ h) (state w)) as [err st]. simpl.
  split; [reflexivity|]. exists [EvToText k]. split; [reflexivity|].
  now repeat constructor.
Qed.

(** Past the parse a handler claims the object on every exit, and all it
    does is logged under its own kind. *)
Lemma serve_claims {A R : Type} (k : hkind) (object : string)
    (lookup : BootstrapClient -> A -> State -> list string * option Error * State)
    (fetch : list string -> HTTPClient -> A -> State -> (Error + R) * State)
    (toText : R -> World -> result)
    (h : Handler) (arg : A) (w : World) :
  (forall rec w0, (toText rec w0).1.1 = true
     /\ exists evs, trace (toText rec w0).2 = trace w0 ++ evs
                    /\ Forall (fun e => eventKind e = k) evs) ->
  (serve k object lookup fetch toText h arg w).1.1 = true
  /\ exists evs, trace (serve k object lookup fetch toText h arg w).2 = trace w ++ evs
                 /\ Forall (fun e => eventKind e = k) evs.
Proof.
  intros Htext. unfold serve.
  assert (Hres : forall uris (w1 : World) evs1,
            trace w1 = trace w ++ evs1 ->
            Forall (fun e => eventKind e = k) evs1 ->
            let r := (let '(r, st) := fetch uris (HTTPClient_ h) arg (state w1) in
                      match r with
                      | inl e => (true, Some e, log (EvClient k uris object) st w1)
                      | inr rec => toText rec (log (EvClient k uris object) st w1)
                      end) in
            r.1.1 = true
            /\ exists evs, trace r.2 = trace w ++ evs
                           /\ Forall (fun e => eventKind e = k) evs).
  { intros uris w1 evs1 Ht1 Hall1.
    destruct (fetch uris (HTTPClient_ h) arg (state w1)) as [[e|rec] st]; simpl.
    - split; [reflexivity|]. exists (evs1 ++ [EvClient k uris object]).
      rewrite Ht1, app_assoc. split; [reflexivity|].
      apply Forall_app. split; [exact Hall1 | now repeat constructor].
    - destruct (Htext rec (log (EvClient k uris object) st w1))
        as [Hok (evs & Ht & Hall)].
      split; [exact Hok|]. exists (evs1 ++ EvClient k uris object :: evs).
      rewrite Ht. simpl. rewrite Ht1, <- !app_assoc. split; [reflexivity|].
      apply Forall_app. split; [exact Hall1|]. now constructor. }
  destruct (Bootstrap h) as [b|].
  - destruct (lookup b arg (state w)) as [[uris err] st].
    destruct err as [e|].
    + simpl. split; [reflexivity|]. exists [EvBootstrap k object].
      split; [reflexivity | now repeat constructor].
    + apply (Hres uris (log (EvBootstrap k object) st w) [EvBootstrap k object]);
        [reflexivity | now repeat constructor].
  - apply (Hres (URIs h) w []); [now rewrite app_nil_r | constructor].
Qed.

Lemma Entity_claims (h : Handler) (object : string) (w : World) :
  (Entity h object w).1.1 = true.
Proof.
  unfold Entity.
  destruct (Client_Entity (URIs h) (HTTPClient_ h) object (state w)) as [[e|rec] st];
    [reflexivity|].
  now destruct (Entity_ToText rec (Writer_ h) (state (log _ st w))).
Qed.

(** [Handler.ASN] past the parse has the shared shape. *)
Lemma ASN_serve (h : Handler) (object : string) (w : World) (asn : N) :
  strconv_ParseUint object 32 = (asn, None) ->
  ASN h object w
  = serve KASN object Bootstrap_ASN Client_ASN (print KASN AS_ToText h) h asn w.
Proof. intros Hp. unfold ASN, serve, print. now rewrite Hp. Qed.

Lemma ASN_claims (h : Handler) (object : string) (w : World) :
  (strconv_ParseUint object 32).2 = None ->
  (ASN h object w).1.1 = true
  /\ exists evs, trace (ASN h object w).2 = trace w ++ evs
                 /\ Forall (fun e => eventKind e = KASN) evs.
Proof.
  intros Hp.
  destruct (strconv_ParseUint object 32) as [asn [err|]] eqn:Hparse;
    [discriminate|].
  rewrite (ASN_serve h object w asn Hparse).
  apply serve_claims. intros rec w0. apply print_claims.
Qed.

(** X18.  [Handler.ASN] claims exactly the non-empty texts of decimal digits
    whose value is below [2^32]: a sign, a space, an underscore, a prefix
    such as [0x] or a value of 33 bits makes it decline. *)
Lemma ASN_claims_iff (h : Handler) (object : string) (w : World) :
  (ASN h object w).1.1 = true <->
  object <> EmptyString /\ allDigits object = true
  /\ (decimalValue 0 object < 4294967296)%N.
Proof.
  rewrite <- (proj1 (GoLibFacts.strconv_ParseUint_32 object)). split.
  - unfold ASN.
    destruct (strconv_ParseUint object 32) as [asn [err|]];
      [discriminate | reflexivity].
  - intros Hp. now apply ASN_claims.
Qed.

(** C9.  [Handler.Query] tries [ASN], [IP], [IPNetwork], [Domain] and
    [Entity] in that order and returns the result of the first handler that
    claims the object or fails, every handler before it having declined.  A
    string that [strconv.ParseUint] reads as a 32-bit unsigned integer is
    settled by [ASN], the first handler: the query is the AS-number query,
    it claims the object, and nothing is done for it under another kind, the
    domain handler included. *)
Theorem Query_first_claim (h : Handler) (object : string) (w : World) :
  handlers h = [ASN h; IP_ h; IPNetwork h; Domain h; Entity h]
  /\ (exists pre hd post w0,
        handlers h = pre ++ hd :: post
        /\ Declined object pre w w0
        /\ settles (hd object w0)
        /\ Query h object w = hd object w0)
  /\ ((strconv_ParseUint object 32).2 = None ->
      Query h object w = ASN h object w
      /\ (Query h object w).1.1 = true
      /\ exists evs, trace (Query h object w).2 = trace w ++ evs
                     /\ Forall (fun e => eventKind e = KASN) evs).
Proof.
  split; [reflexivity|]. split.
  - unfold Query.
    destruct (Query_loop_spec (handlers h) object false w)
      as [Hfirst|(w' & Hd & _)]; [exact Hfirst|].
    exfalso. unfold handlers in Hd.
    do 4 (inversion Hd as [|? ? ? ? ? _ Hd']; subst; clear Hd; rename Hd' into Hd).
    inversion Hd as [|? ? ? ? ? He _]; subst.
    pose proof (Entity_claims h object w4) as Hc. rewrite He in Hc.
    discriminate.
  - intros Hp. destruct (ASN_claims h object w Hp) as [Hok Hev].
    assert (Hq : Query h object w = ASN h object w).
    { unfold Query, handlers. simpl.
      destruct (ASN h object w) as [[ok err] w1]. simpl in Hok. subst ok.
      now destruct err. }
    rewrite Hq. auto.
Qed.

(** C7 (as the code has it).  A string that [net.ParseIP] refuses is
    declined by [Handler.IP], and one that [net.ParseCIDR] refuses by
    [Handler.IPNetwork]: [false] with a nil error, the world as it was, so
    with no bootstrap lookup and no request made for it as an address or a
    network.  A string that no numeric handler reads is handed on by
    [Handler.Query] to the domain and entity handlers. *)
Theorem IP_declines_unparsed (h : Handler) (object : string) (w : World) :
  (net_ParseIP object = None -> IP_ h object w = (false, None, w))
  /\ (net_ParseCIDR object = None -> IPNetwork h object w = (false, None, w))
  /\ ((strconv_ParseUint object 32).2 <> None ->
      net_ParseIP object = None -> net_ParseCIDR object = None ->
      Query h object w = Query_loop [Domain h; Entity h] object false w).
Proof.
  split; [|split].
  - intros Hp. unfold IP_. now rewrite Hp.
  - intros Hp. unfold IPNetwork. now rewrite Hp.
  - intros Hn Hi Hc. unfold Query, handlers, ASN, IP_, IPNetwork. simpl.
    destruct (strconv_ParseUint object 32) as [asn [err|]]; [|contradiction].
    now rewrite Hi, Hc.
Qed.

End WithEnv.

(** *** The theorems run on the test double *)

Import Doubles.

(** C7 (as stated) fails.  [example.com] is neither an address nor a block.
    [Handler.IP] and [Handler.IPNetwork] return no error for it, and the
    query goes on to resolve and fetch it as a domain. *)
Lemma IP_reports_no_error :
  @net_ParseIP canned "example.com" = None
  /\ @net_ParseCIDR canned "example.com" = None
  /\ @IP_ canned handler "example.com" idle = (false, None, idle)
  /\ @IPNetwork canned handler "example.com" idle = (false, None, idle)
  /\ @Query canned handler "example.com" idle
     = (true, None,
        @Build_World canned tt
          [EvBootstrap KDomain "example.com";
           EvClient KDomain ["https://rdap.example"] "example.com";
           EvToText KDomain]).
Proof. repeat split. Qed.

(** The theorem of C7 at that string. *)
Lemma IP_declines_unparsed_witness :
  @IP_ canned handler "example.com" idle = (false, None, idle)
  /\ @IPNetwork canned handler "example.com" idle = (false, None, idle)
  /\ @Query canned handler "example.com" idle
     = @Query_loop canned [@Domain canned handler; @Entity canned handler]
         "example.com" false idle.
Proof.
  destruct (@IP_declines_unparsed canned handler "example.com" idle)
    as (Hip & Hnet & Hq).
  split; [apply Hip; reflexivity|].
  split; [apply Hnet; reflexivity|].
  apply Hq; [discriminate | reflexivity | reflexivity].
Defined.

(** The theorem of C9 at [1234], which is also a domain name for the double:
    it is served as an AS number. *)
Lemma Query_first_claim_witness :
  (@strconv_ParseUint "1234" 32).2 = None
  /\ @isFQDN_MatchString canned "1234" = true
  /\ @Query canned handler "1234" idle = @ASN canned handler "1234" idle
  /\ (@Query canned handler "1234" idle).1.1 = true
  /\ exists evs, trace (@Query canned handler "1234" idle).2 = trace idle ++ evs
                 /\ Forall (fun e => eventKind e = KASN) evs.
Proof.
  split; [reflexivity|]. split; [reflexivity|].
  apply (@Query_first_claim canned handler "1234" idle). reflexivity.
Defined.

End HandlerFacts.

(** ** More on the handlers *)

Module HandlerMore.
Import GoLib Handler HandlerRuns.

Section WithEnv.
Context `{Env}.

(** The last step of a handler takes the object and logs the output. *)
Lemma print_run {R : Type} (k : hkind)
    (toText : R -> Writer -> State -> option Error * State)
    (h : Handler) (r : R) (w : World) :
  (print k toText h r w).1.1 = true
  /\ trace (print k toText h r w).2 = trace w ++ [EvToText k].
Proof.
  unfold print. now destruct (toText r (Writer_ h) (state w)).
Qed.

(** The shape shared by the bootstrapped handlers is one run. *)
Lemma serve_run {A R : Type} (k : hkind) (object : string)
    (lookup : BootstrapClient -> A -> State -> list string * option Error * State)
    (fetch : list string -> HTTPClient -> A -> State -> (Error + R) * State)
    (toText : R -> World -> result)
    (h : Handler) (arg : A) (w : World) :
  k <> KEntity ->
  (forall b, bootstrapLookup b k object (state w) = Some (lookup b arg (state w))) ->
  (forall r w0, (toText r w0).1.1 = true
     /\ exists ts, (ts = [] \/ ts = [EvToText k])
                   /\ trace (toText r w0).2 = trace w0 ++ ts) ->
  (serve k object lookup fetch toText h arg w).1.1 = true
  /\ exists evs, trace (serve k object lookup fetch toText h arg w).2 = trace w ++ evs
                 /\ oneRun h k object w evs.
Proof.
  intros Hk Hlook Htext. unfold serve.
  destruct (Bootstrap h) as [b|] eqn:Hb.
  - specialize (Hlook b).
    destruct (lookup b arg (state w)) as [[uris err] st].
    destruct err as [e|].
    + simpl. split; [reflexivity|]. exists [EvBootstrap k object].
      split; [reflexivity|]. left. exists b, uris, e, st. auto.
    + destruct (fetch uris (HTTPClient_ h) arg (state (log (EvBootstrap k object) st w)))
        as [[e|r] st1].
      * simpl. split; [reflexivity|].
        exists [EvBootstrap k object; EvClient k uris object].
        split; [now rewrite <- app_assoc|].
        right. left. exists b, uris, st, []. auto 6.
      * destruct (Htext r (log (EvClient k uris object) st1
                             (log (EvBootstrap k object) st w)))
          as [Hok (ts & Hts & Ht)].
        split; [exact Hok|].
        exists (EvBootstrap k object :: EvClient k uris object :: ts).
        rewrite Ht. simpl. split; [now rewrite <- !app_assoc|].
        right. left. exists b, uris, st, ts. auto 6.
  - destruct (fetch (URIs h) (HTTPClient_ h) arg (state w)) as [[e|r] st1].
    + simpl. split; [reflexivity|]. exists [EvClient k (URIs h) object].
      split; [reflexivity|]. right. right. exists []. auto.
    + destruct (Htext r (log (EvClient k (URIs h) object) st1 w))
        as [Hok (ts & Hts & Ht)].
      split; [exact Hok|]. exists (EvClient k (URIs h) object :: ts).
      rewrite Ht. simpl. split; [now rewrite <- app_assoc|].
      right. right. exists ts. auto.
Qed.

Lemma print_text {R : Type} (k : hkind)
    (toText : R -> Writer -> State -> option Error * State) (h : Handler) :
  forall r w0, (print k toText h r w0).1.1 = true
    /\ exists ts, (ts = [] \/ ts = [EvToText k])
                  /\ trace (print k toText h r w0).2 = trace w0 ++ ts.
Proof.
  intros r w0. destruct (print_run k toText h r w0) as [Hok Ht].
  split; [exact Hok|]. exists [EvToText k]. split; [now right | exact Ht].
Qed.

Lemma ASN_runs (h : Handler) : declinesOrRuns h KASN (ASN h).
Proof.
  intros object w.
  destruct (strconv_ParseUint object 32) as [asn [err|]] eqn:Hp.
  - left. unfold ASN. now rewrite Hp.
  - right. rewrite (HandlerFacts.ASN_serve h object w asn Hp).
    apply serve_run; [discriminate | | apply print_text].
    intros b. unfold bootstrapLookup. now rewrite Hp.
Qed.

Lemma IP_runs (h : Handler) : declinesOrRuns h KIP (IP_ h).
Proof.
  intros object w. unfold IP_.
  destruct (net_ParseIP object) as [ip|] eqn:Hp; [right | now left].
  apply (serve_run KIP object Bootstrap_IP Client_IP (print KIP IPNetwork_ToText h));
    [discriminate | | apply print_text].
  intros b. unfold bootstrapLookup. now rewrite Hp.
Qed.

Lemma IPNetwork_runs (h : Handler) : declinesOrRuns h KIPNetwork (IPNetwork h).
Proof.
  intros object w. unfold IPNetwork.
  destruct (net_ParseCIDR object) as [[ip cidr]|] eqn:Hp; [right | now left].
  apply (serve_run KIPNetwork object Bootstrap_IPNetwork Client_IPNetwork
           (print KIPNetwork IPNetwork_ToText h));
    [discriminate | | apply print_text].
  intros b. unfold bootstrapLookup. now rewrite Hp.
Qed.

Lemma Domain_runs (h : Handler) : declinesOrRuns h KDomain (Domain h).
Proof.
  intros object w. unfold Domain.
  destruct (isFQDN_MatchString object) eqn:Hp; [right | now left].
  apply (serve_run KDomain object Bootstrap_Domain Client_Domain
           (fun r w' => match r with
                        | None => (true, None, w')
                        | Some rec => print KDomain Domain_ToText h rec w'
                        end)); [discriminate | |].
  - intros b. unfold bootstrapLookup. now rewrite Hp.
  - intros [rec|] w0; [apply print_text|].
    split; [reflexivity|]. exists []. split; [now left | now rewrite app_nil_r].
Qed.

Lemma Entity_runs (h : Handler) : declinesOrRuns h KEntity (Entity h).
Proof.
  intros object w. right. unfold Entity.
  destruct (Client_Entity (URIs h) (HTTPClient_ h) object (state w)) as [[e|r] st].
  - simpl. split; [reflexivity|]. exists [EvClient KEntity (URIs h) object].
    split; [reflexivity|]. right. right. exists []. auto.
  - destruct (Entity_ToText r (Writer_ h)
                (state (log (EvClient KEntity (URIs h) object) st w))) as [err st1].
    simpl. split; [reflexivity|].
    exists [EvClient KEntity (URIs h) object; EvToText KEntity].
    split; [now rewrite <- app_assoc|].
    right. right. exists [EvToText KEntity]. auto.
Qed.

(** [Handler.Domain] takes what the pattern passes. *)
Lemma Domain_claims (h : Handler) (object : string) (w : World) :
  isFQDN_MatchString object = true -> (Domain h object w).1.1 = true.
Proof.
  intros Hm. destruct (Domain_runs h object w) as [Hdec|[Hok _]]; [|exact Hok].
  unfold Domain in Hdec. rewrite Hm in Hdec. exfalso. revert Hdec.
  destruct (Bootstrap h) as [b|].
  - destruct (Bootstrap_Domain b object (state w)) as [[uris [e|]] st];
      [discriminate|].
    destruct (Client_Domain uris (HTTPClient_ h) object
                (state (log (EvBootstrap KDomain object) st w))) as [[e|[rec|]] st1];
      try discriminate.
    now destruct (Domain_ToText rec (Writer_ h) _).
  - destruct (Client_Domain (URIs h) (HTTPClient_ h) object (state w))
      as [[e|[rec|]] st1]; try discriminate.
    now destruct (Domain_ToText rec (Writer_ h) _).
Qed.

(** Every handler of the list declines or runs, under its own kind. *)
Lemma handlers_run (h : Handler) (hd : string -> World -> result) :
  hd ∈ handlers h -> exists k, declinesOrRuns h k hd.
Proof.
  unfold handlers. rewrite !elem_of_cons, elem_of_nil.
  intros [->|[->|[->|[->|[->|[]]]]]].
  - exists KASN. apply ASN_runs.
  - exists KIP. apply IP_runs.
  - exists KIPNetwork. apply IPNetwork_runs.
  - exists KDomain. apply Domain_runs.
  - exists KEntity. apply Entity_runs.
Qed.

(** Handlers that decline one after the other leave the world as it was. *)
Lemma Declined_frame (h : Handler) (object : string)
    (pre : list (string -> World -> result)) (w w0 : World) :
  (forall hd, hd ∈ pre -> hd ∈ handlers h) ->
  Declined object pre w w0 -> w0 = w.
Proof.
  intros Hin Hd. induction Hd as [|hd rest w w1 w' Hhd Hd IH]; [reflexivity|].
  destruct (handlers_run h hd) as [k Hk]; [apply Hin; now left|].
  assert (w1 = w) as ->.
  { destruct (Hk object w) as [Hdec|[Hok _]].
    - rewrite Hhd in Hdec. now injection Hdec.
    - rewrite Hhd in Hok. discriminate. }
  apply IH. intros hd' Hhd'. apply Hin. now right.
Qed.

(** [Handler.Query] is the first handler that settles, applied to the world
    the query started in. *)
Lemma Query_settled (h : Handler) (object : string) (w : World) :
  exists hd, hd ∈ handlers h
             /\ settles (hd object w)
             /\ Query h object w = hd object w.
Proof.
  unfold Query.
  destruct (HandlerFacts.Query_loop_spec (handlers h) object false w)
    as [(pre & hd & post & w0 & Heq & Hd & Hs & Hq)|(w' & Hd & _)].
  - assert (w0 = w) as ->.
    { apply (Declined_frame h object pre); [|exact Hd].
      intros hd' Hin. rewrite Heq. apply elem_of_app. now left. }
    exists hd. split; [|now split].
    rewrite Heq. apply elem_of_app. right. now left.
  - exfalso. unfold handlers in Hd.
    do 4 (inversion Hd as [|? ? ? ? ? _ Hd']; subst; clear Hd; rename Hd' into Hd).
    inversion Hd as [|? ? ? ? ? He _]; subst.
    pose proof (HandlerFacts.Entity_claims h object w4) as Hc.
    rewrite He in Hc. discriminate.
Qed.

(** X1.  [Handler.Query] never reports an object as unhandled: its boolean
    result is [true] on every input, with or without an error, because
    every handler returns [true] past its parse and [Entity], the last one,
    has no parse. *)
Theorem Query_always_true (h : Handler) (object : string) (w : World) :
  (Query h object w).1.1 = true.
Proof.
  destruct (Query_settled h object w) as (hd & Hin & Hs & ->).
  destruct (handlers_run h hd Hin) as [k Hk].
  destruct (Hk object w) as [Hdec|[Hok _]]; [|exact Hok].
  rewrite Hdec in Hs. destruct Hs as [Hs|Hs]; [discriminate | now elim Hs].
Qed.

(** X2.  All that one call of [Handler.Query] does is one run of one
    handler: the handlers tried before it leave no trace, and the events of
    the call are that handler's bootstrap lookup (when a bootstrap client is
    set and the handler is not [Entity]), then its RDAP client query unless
    the lookup failed, then at most one output, all under one kind.  The
    RDAP client query is given the URIs that lookup returned for the parsed
    object in the state the call started in, or [h.URIs] when there was no
    lookup. *)
Theorem Query_one_run (h : Handler) (object : string) (w : World) :
  exists hd k evs,
    hd ∈ handlers h
    /\ Query h object w = hd object w
    /\ trace (Query h object w).2 = trace w ++ evs
    /\ oneRun h k object w evs.
Proof.
  destruct (Query_settled h object w) as (hd & Hin & Hs & Hq).
  destruct (handlers_run h hd Hin) as [k Hk].
  destruct (Hk object w) as [Hdec|[_ (evs & Ht & Hrun)]].
  - rewrite Hdec in Hs. destruct Hs as [Hs|Hs]; [discriminate | now elim Hs].
  - exists hd, k, evs. rewrite Hq. auto.
Qed.

(** X3.  A handler that returns [false] has done nothing: it returns a nil
    error and the world it was given. *)
Theorem declining_handler_frame (h : Handler) (hd : string -> World -> result)
    (object : string) (w : World) :
  hd ∈ handlers h ->
  (hd object w).1.1 = false ->
  hd object w = (false, None, w).
Proof.
  intros Hin Hf. destruct (handlers_run h hd Hin) as [k Hk].
  destruct (Hk object w) as [Hdec|[Hok _]]; [exact Hdec|].
  rewrite Hf in Hok. discriminate.
Qed.

(** X4.  Without a bootstrap client ([h.Bootstrap] nil) a query makes no
    bootstrap lookup, and the RDAP client is given [h.URIs]. *)
Theorem Query_without_bootstrap (h : Handler) (object : string) (w : World) :
  Bootstrap h = None ->
  exists evs,
    trace (Query h object w).2 = trace w ++ evs
    /\ Forall (fun e => match e with
                        | EvBootstrap _ _ => False
                        | EvClient _ uris _ => uris = URIs h
                        | EvToText _ => True
                        end) evs.
Proof.
  intros Hb. destruct (Query_settled h object w) as (hd & Hin & Hs & Hq).
  destruct (handlers_run h hd Hin) as [k Hk].
  destruct (Hk object w) as [Hdec|[_ (evs & Ht & Hrun)]].
  { rewrite Hdec in Hs. destruct Hs as [Hs|Hs]; [discriminate | now elim Hs]. }
  exists evs. rewrite Hq. split; [exact Ht|].
  destruct Hrun as [(b & ? & ? & ? & Hsome & _)
                   |[(b & ? & ? & ? & Hsome & _)|(ts & _ & Hts & ->)]];
    [congruence | congruence |].
  constructor; [reflexivity|].
  destruct Hts as [->| ->]; repeat constructor.
Qed.

End WithEnv.

(** *** Run on the test double *)

Import Doubles MoreDoubles.

(** The theorem X3 for the address handler and a domain name. *)
Lemma declining_handler_frame_witness :
  @IP_ canned handler "example.com" idle = (false, None, idle).
Proof.
  apply (@declining_handler_frame canned handler (@IP_ canned handler)
           "example.com" idle).
  - unfold handlers. apply elem_of_cons. right. apply elem_of_cons. now left.
  - reflexivity.
Defined.

(** The theorem X4 for a handler with its own servers. *)
Lemma Query_without_bootstrap_witness :
  exists evs,
    trace (@Query canned direct "example.com" idle).2 = trace idle ++ evs
    /\ Forall (fun e => match e with
                        | EvBootstrap _ _ => False
                        | EvClient _ uris _ => uris = ["https://rdap.registro.br"]
                        | EvToText _ => True
                        end) evs.
Proof.
  apply (@Query_without_bootstrap canned direct "example.com" idle).
  reflexivity.
Defined.

End HandlerMore.

(** ** More on the client *)

Module ClientMore.
Import GoLib Bootstrap Client ClientRuns ClientRev1Ops.

Section WithEnv.
Context `{Env}.

Lemma fetch_request (c : Client) (segment : string) (id : identifier)
    (uri : string) (o : Object) (w : World) :
  trace (fetchAndUnmarshal json_Decode_object c (queryURL uri segment id) o w).2
  = trace w ++ option_list (requestFor segment id uri).
Proof.
  unfold requestFor.
  destruct (ClientFacts.fetch_trace json_Decode_object c
              (queryURL uri segment id) o w) as [[Hw [e He]]|[req [Hreq Ht]]].
  - rewrite Hw, He. simpl. now rewrite app_nil_r.
  - rewrite Ht, Hreq. reflexivity.
Qed.

(** X5.  The candidate loop tries the candidates in the order of the list,
    each at most once, with no retry: the requests it sends are those of
    the first [n] candidates, one for each whose URL can be parsed.  It
    returns an error only after all of them were tried. *)
Theorem query_loop_requests (c : Client) (segment : string) (id : identifier)
    (uris : list string) (o : Object) (w : World) :
  exists n,
    n <= length uris
    /\ trace (query_loop c segment id uris o w).2
       = trace w ++ omap (requestFor segment id) (take n uris)
    /\ ((query_loop c segment id uris o w).1.1 <> None -> n = length uris).
Proof.
  revert o w. induction uris as [|uri rest IH]; intros o w; simpl.
  - exists 0. simpl. rewrite app_nil_r. auto.
  - pose proof (fetch_request c segment id uri o w) as Hf.
    destruct (fetchAndUnmarshal json_Decode_object c (queryURL uri segment id) o w)
      as [[[e|] o1] w1]; simpl in Hf.
    + destruct (IH o1 w1) as (n & Hn & Ht & Hall).
      exists (S n). split; [lia|]. split.
      * rewrite Ht, Hf, <- app_assoc. simpl.
        now destruct (requestFor segment id uri).
      * intros Herr. f_equal. now apply Hall.
    + exists 1. split; [lia|]. split.
      * simpl. rewrite Hf. now destruct (requestFor segment id uri).
      * intros Hne. now elim Hne.
Qed.



(** Only the sort of a long list can make the end of the query panic. *)
Lemma candidates_panic (c : Client) (k : kind) (id : identifier) (o : Object)
    (uris : list string) (w : World) :
  (candidates c k id o uris w).1 = Panic ->
  insertionSortOnly < length uris /\ sort_long uris = None.
Proof.
  unfold candidates.
  destruct (decide (length uris <= insertionSortOnly)) as [Hle|Hgt].
  - rewrite (BootstrapFacts.sort_Sort_short sort_long uris Hle).
    now destruct (query_loop c (kindToSegment k) id (httpsFirst uris) o w) as [[? ?] ?].
  - destruct (sort_Sort sort_long uris) as [sorted|] eqn:Hs.
    + now destruct (query_loop c (kindToSegment k) id sorted o w) as [[? ?] ?].
    + intros _. split; [lia|]. unfold sort_Sort in Hs. simpl in Hs.
      unfold Values_Len in Hs. now rewrite decide_False in Hs by exact Hgt.
Qed.

Lemma query_panic (c : Client) (k : kind) (id : identifier) (o : Object)
    (w : World) :
  (forall r, matcher (matcherOf k) r id <> Panic) ->
  (query c k id o w).1 = Panic ->
  exists uris, insertionSortOnly < length uris /\ sort_long uris = None.
Proof.
  intros Hm. unfold query. case_decide as Hh.
  - destruct (fetchAndUnmarshal json_Decode_registry c
      (fmt_Sprintf (Bootstrap c) (kind_string k)) emptyRegistry w)
      as [[[e|] r] w1]; [discriminate|].
    specialize (Hm r).
    destruct (matcher (matcherOf k) r id) as [|[uris [m|]]];
      [now elim Hm | discriminate |].
    case_decide; [discriminate|]. intros Hp. exists uris.
    eapply candidates_panic. exact Hp.
  - intros Hp. exists [Host c]. eapply candidates_panic. exact Hp.
Qed.

Lemma finish_panic (r : outcome (option error * Object) * World) :
  (finish r).1 = Panic -> r.1 = Panic.
Proof. now destruct r as [[|[[e|] o]] w]. Qed.

(** X7.  The type assertions of [Client.query] never fail for the three
    public operations: [QueryDomain], [QueryASN] and [QueryIPNetwork] give
    the identifier the type their kind asks for.  With the calls into other
    packages returning, a public operation panics only on a nil receiver, on
    a nil network given to [QueryIPNetwork], or inside [sort.Sort] on more
    than [insertionSortOnly] candidates; on a nil network [QueryIPNetwork]
    panics with nothing done. *)
Theorem public_queries_type_safe (c : option Client) (zero : Object) (w : World) :
  (forall fqdn, (ClientCalls.QueryDomain c fqdn zero w).1 = Panic ->
     c = None
     \/ exists uris, insertionSortOnly < length uris /\ sort_long uris = None)
  /\ (forall n, (ClientCalls.QueryASN c n zero w).1 = Panic ->
     c = None
     \/ exists uris, insertionSortOnly < length uris /\ sort_long uris = None)
  /\ (forall ipnet, (ClientCalls.QueryIPNetwork c ipnet zero w).1 = Panic ->
     c = None \/ ipnet = None
     \/ exists uris, insertionSortOnly < length uris /\ sort_long uris = None)
  /\ ClientCalls.QueryIPNetwork c None zero w = (Panic, w).
Proof.
  split; [|split; [|split]].
  - intros fqdn. destruct c as [c|]; [|now left]. simpl. intros Hp. right.
    apply finish_panic in Hp. eapply query_panic; [|exact Hp]. discriminate.
  - intros n. destruct c as [c|]; [|now left]. simpl. intros Hp. right.
    apply finish_panic in Hp. eapply query_panic; [|exact Hp]. discriminate.
  - intros [ipnet|]; [|now right; left].
    destruct c as [c|]; [|now left]. simpl. intros Hp. right. right.
    apply finish_panic in Hp. eapply query_panic; [|exact Hp]. unfold ipKind.
    destruct (To4 (IPNet_IP ipnet)); discriminate.
  - reflexivity.
Qed.

(** A successful candidate loop, split at the candidate that answered. *)
Lemma query_loop_success (c : Client) (segment : string) (id : identifier)
    (uris : list string) (o : Object) (w : World) (o' : Object) (w' : World) :
  query_loop c segment id uris o w = (None, o', w') ->
  exists pre u post o0 w0,
    uris = pre ++ u :: post
    /\ AllFail c segment id pre o w o0 w0
    /\ fetchAndUnmarshal json_Decode_object c (queryURL u segment id) o0 w0
       = (None, o', w').
Proof.
  revert o w. induction uris as [|uri rest IH]; intros o w; simpl;
    [discriminate|].
  destruct (fetchAndUnmarshal json_Decode_object c (queryURL uri segment id) o w)
    as [[[e|] o1] w1] eqn:Hf.
  - intros Hq. destruct (IH o1 w1 Hq) as (pre & u & post & o0 & w0 & -> & Ha & Hu).
    exists (uri :: pre), u, post, o0, w0.
    split; [reflexivity|]. split; [econstructor; eassumption | exact Hu].
  - intros [= <- <-]. exists [], uri, rest, o, w.
    split; [reflexivity|]. split; [constructor | exact Hf].
Qed.

(** X8.  With up to [insertionSortOnly] candidates the [https] servers are
    tried first: when the query succeeds through a server whose URL is not
    [https], every [https] server of the list was tried before it and
    failed. *)
Theorem plain_only_after_https (c : Client) (k : kind) (id : identifier)
    (o : Object) (uris : list string) (w : World) (o' : Object) (w' : World) :
  length uris <= insertionSortOnly ->
  candidates c k id o uris w = (Return (None, o'), w') ->
  exists pre u post o0 w0,
    httpsFirst uris = pre ++ u :: post
    /\ AllFail c (kindToSegment k) id pre o w o0 w0
    /\ fetchAndUnmarshal json_Decode_object c
         (queryURL u (kindToSegment k) id) o0 w0 = (None, o', w')
    /\ (isHTTPS u = false ->
        forall x, x ∈ uris -> isHTTPS x = true -> x ∈ pre).
Proof.
  intros Hn. unfold candidates.
  rewrite (BootstrapFacts.sort_Sort_short sort_long uris Hn).
  destruct (query_loop c (kindToSegment k) id (httpsFirst uris) o w)
    as [[err o1] w1] eqn:Hq.
  intros [= -> -> ->].
  destruct (query_loop_success c (kindToSegment k) id _ o w o' w' Hq)
    as (pre & u & post & o0 & w0 & Hsplit & Ha & Hu).
  exists pre, u, post, o0, w0. repeat split; try assumption.
  intros Hu' x Hx Hxs.
  assert (Hin : x ∈ httpsFirst uris).
  { rewrite (BootstrapFacts.httpsFirst_Permutation uris). exact Hx. }
  apply list_elem_of_lookup in Hin. destruct Hin as [i Hi].
  assert (Hlt : i < length pre).
  { apply (BootstrapFacts.httpsFirst_precedes uris i (length pre) x u);
      try assumption.
    rewrite Hsplit. now apply list_lookup_middle. }
  rewrite Hsplit, lookup_app_l in Hi by exact Hlt.
  eapply list_elem_of_lookup_2. exact Hi.
Qed.

(** X9.  A query that fails before it has candidates (the bootstrap
    document cannot be fetched or decoded, the matcher fails, or nothing
    matches) returns the caller's object as it was given; only the error of
    an exhausted candidate loop can come with an object that failed
    attempts have written to. *)
Theorem failed_resolution_frame (c : Client) (k : kind) (id : identifier)
    (o : Object) (w : World) (e : error) (o' : Object) (w' : World) :
  query c k id o w = (Return (Some e, o'), w') ->
  e <> Errorf ("no data available for " +:+ fmt_v id) ->
  o' = o.
Proof.
  unfold query. intros Hq Hne.
  assert (Hc : forall uris w0,
            candidates c k id o uris w0 = (Return (Some e, o'), w') -> o' = o).
  { intros uris w0 Hcand.
    destruct (ClientFacts.candidates_result c k id o uris w0) as (_ & _ & _ & He).
    rewrite Hcand in He. now elim Hne; apply (He e o'). }
  case_decide as Hh; [|exact (Hc _ _ Hq)].
  destruct (fetchAndUnmarshal json_Decode_registry c
    (fmt_Sprintf (Bootstrap c) (kind_string k)) emptyRegistry w)
    as [[[e0|] r] w1]; [now injection Hq|].
  destruct (matcher (matcherOf k) r id) as [|[uris [m|]]];
    [discriminate | now injection Hq |].
  case_decide; [now injection Hq | exact (Hc _ _ Hq)].
Qed.

(** X10.  In the first revision the candidate loop does not depend on the
    identifier: the candidate URI is fetched as it stands, so two
    identifiers give the same requests, the same object and the same
    success or failure; only the text of the final error names the
    identifier. *)
Theorem rev1_loop_ignores_identifier (c : ClientRev1.Client)
    (id id' : identifier) (uris : list string) (o : Object) (w : World) :
  (ClientRev1.query_loop c id uris o w).2 = (ClientRev1.query_loop c id' uris o w).2
  /\ (ClientRev1.query_loop c id uris o w).1.2
     = (ClientRev1.query_loop c id' uris o w).1.2
  /\ match (ClientRev1.query_loop c id uris o w).1.1,
           (ClientRev1.query_loop c id' uris o w).1.1 with
     | None, None => True
     | Some e, Some e' =>
         e = Errorf ("no data available for " +:+ fmt_v id)
         /\ e' = Errorf ("no data available for " +:+ fmt_v id')
     | _, _ => False
     end.
Proof.
  revert o w. induction uris as [|uri rest IH]; intros o w; simpl.
  - auto.
  - destruct (ClientRev1.fetchAndUnmarshal json_Decode_object c uri o w)
      as [[[e|] o1] w1]; [apply IH | simpl; auto].
Qed.

(** The candidate loop of the first revision gives only requests. *)
Lemma rev1_loop_trace (c : ClientRev1.Client) (id : identifier)
    (uris : list string) (o : Object) (w : World) :
  exists evs, trace (ClientRev1.query_loop c id uris o w).2 = trace w ++ evs
              /\ Forall (fun e => exists req, e = EvDo req) evs.
Proof.
  revert o w. induction uris as [|uri rest IH]; intros o w; simpl.
  - exists []. now rewrite app_nil_r.
  - unfold ClientRev1.fetchAndUnmarshal at 1.
    pose proof (ClientFacts.fetch_trace json_Decode_object
      {| cacheDir := ClientRev1.cacheDir c;
         Bootstrap := ClientRev1.rdapEndpoint c; Host := "" |} uri o w) as Hf.
    destruct (fetchAndUnmarshal json_Decode_object _ uri o w)
      as [[[e|] o1] w1]; simpl in Hf.
    + destruct (IH o1 w1) as (evs & Ht & Hall).
      destruct Hf as [[-> _]|[req [_ Hreq]]].
      * now exists evs.
      * exists (EvDo req :: evs). rewrite Ht, Hreq, <- app_assoc.
        split; [reflexivity|]. constructor; [now exists req | exact Hall].
    + destruct Hf as [[-> _]|[req [_ Hreq]]].
      * exists []. now rewrite app_nil_r.
      * exists [EvDo req]. split; [exact Hreq|]. constructor; [now exists req|].
        constructor.
Qed.

(** X20.  In the first revision the URI given to [SetRDAPEndpoint] is the
    template of the bootstrap document, never an RDAP server asked
    directly: the cache directory is kept, and a query after it begins with
    the request for the document of its kind under that template; a matcher
    is called only right after that request, and candidates are asked only
    after the matcher. *)
Theorem rev1_endpoint_is_bootstrap (c : ClientRev1.Client) (uri : string)
    (k : ClientRev1.kind) (id : identifier) (o : Object) (w : World) :
  ClientRev1.cacheDir (SetRDAPEndpoint c uri) = ClientRev1.cacheDir c
  /\ exists evs,
       trace (ClientRev1.query (SetRDAPEndpoint c uri) k id o w).2 = trace w ++ evs
       /\ (evs = []
           \/ exists req rest,
                http_NewRequest "GET" (fmt_Sprintf uri (ClientRev1.kind_string k))
                = inr req
                /\ evs = EvDo req :: rest
                /\ (rest = []
                    \/ exists r more,
                         rest = EvMatch (ClientRev1.matcherOf k) r id :: more
                         /\ Forall (fun e => exists q, e = EvDo q) more)).
Proof.
  split; [reflexivity|]. unfold ClientRev1.query.
  set (c' := SetRDAPEndpoint c uri).
  change (ClientRev1.rdapEndpoint c') with uri.
  unfold ClientRev1.fetchAndUnmarshal at 1.
  pose proof (ClientFacts.fetch_trace json_Decode_registry
    {| cacheDir := ClientRev1.cacheDir c';
       Bootstrap := ClientRev1.rdapEndpoint c'; Host := "" |}
    (fmt_Sprintf uri (ClientRev1.kind_string k)) emptyRegistry w) as Hf.
  destruct (fetchAndUnmarshal json_Decode_registry _
    (fmt_Sprintf uri (ClientRev1.kind_string k)) emptyRegistry w)
    as [[err r] w1] eqn:Hfetch. simpl in Hf.
  destruct Hf as [[Hw [e0 He0]]|[req [Hreq Ht]]].
  - unfold fetchAndUnmarshal in Hfetch. rewrite He0 in Hfetch.
    injection Hfetch as <- _ _. subst w1.
    exists []. rewrite app_nil_r. auto.
  - assert (Hone : forall res : outcome (option error * Object),
              exists evs, trace (res, w1).2 = trace w ++ evs
                /\ (evs = [] \/ exists req0 rest,
                      http_NewRequest "GET" (fmt_Sprintf uri (ClientRev1.kind_string k))
                      = inr req0 /\ evs = EvDo req0 :: rest
                      /\ (rest = [] \/ exists r0 more,
                            rest = EvMatch (ClientRev1.matcherOf k) r0 id :: more
                            /\ Forall (fun e => exists q, e = EvDo q) more))).
    { intros res. exists [EvDo req]. split; [exact Ht|]. right.
      exists req, []. auto. }
    assert (Htwo : forall (res : outcome (option error * Object)) more (wf : World),
              trace wf = (trace w1 ++ [EvMatch (ClientRev1.matcherOf k) r id]) ++ more ->
              Forall (fun e => exists q, e = EvDo q) more ->
              exists evs, trace (res, wf).2 = trace w ++ evs
                /\ (evs = [] \/ exists req0 rest,
                      http_NewRequest "GET" (fmt_Sprintf uri (ClientRev1.kind_string k))
                      = inr req0 /\ evs = EvDo req0 :: rest
                      /\ (rest = [] \/ exists r0 more0,
                            rest = EvMatch (ClientRev1.matcherOf k) r0 id :: more0
                            /\ Forall (fun e => exists q, e = EvDo q) more0))).
    { intros res more wf Hwf Hall.
      exists (EvDo req :: EvMatch (ClientRev1.matcherOf k) r id :: more).
      split; [simpl; rewrite Hwf, Ht, <- !app_assoc; reflexivity|].
      right. exists req, (EvMatch (ClientRev1.matcherOf k) r id :: more).
      split; [exact Hreq|]. split; [reflexivity|]. right. now exists r, more. }
    destruct err as [e|]; [apply Hone|].
    destruct (matcher (ClientRev1.matcherOf k) r id) as [|[uris [m|]]];
      [apply Hone | | ].
    + apply (Htwo _ []); [simpl; now rewrite app_nil_r | constructor].
    + case_decide.
      * apply (Htwo _ []); [simpl; now rewrite app_nil_r | constructor].
      * destruct (sort_Sort sort_long uris) as [sorted|].
        -- destruct (rev1_loop_trace c' id sorted o
                       {| net := net w1;
                          trace := trace w1 ++ [EvMatch (ClientRev1.matcherOf k) r id] |})
             as (more & Hm & Hall).
           destruct (ClientRev1.query_loop c' id sorted o _) as [[e1 o1] wf].
           apply (Htwo _ more); [exact Hm | exact Hall].
        -- apply (Htwo _ []); [simpl; now rewrite app_nil_r | constructor].
Qed.

End WithEnv.

(** *** Run on the test doubles *)

Import Doubles MoreDoubles.

(** The theorem X8 on the fallback scenario: of a plain and an [https]
    server the [https] one is asked first and fails, the plain one
    answers. *)
Lemma plain_only_after_https_witness :
  exists pre u post o0 w0,
    httpsFirst ["http://a.example"; "https://b.example"] = pre ++ u :: post
    /\ @AllFail httpsDown (NewClient "cache") "domain" (IdString "example.com")
         pre "" (start tt) o0 w0
    /\ @fetchAndUnmarshal httpsDown _ (@json_Decode_object httpsDown)
         (NewClient "cache")
         (@queryURL httpsDown u "domain" (IdString "example.com")) o0 w0
       = (None, "{}",
          {| net := tt;
             trace := [EvDo (GET "https://b.example/domain/example.com");
                       EvDo (GET "http://a.example/domain/example.com")] |})
    /\ (isHTTPS u = false ->
        forall x, x ∈ ["http://a.example"; "https://b.example"] ->
                  isHTTPS x = true -> x ∈ pre).
Proof.
  apply (@plain_only_after_https httpsDown (NewClient "cache") dns
           (IdString "example.com") ""
           ["http://a.example"; "https://b.example"] (start tt)).
  - unfold insertionSortOnly. simpl. lia.
  - reflexivity.
Defined.

(** The theorem X9 for a name the registry does not serve. *)
Lemma failed_resolution_frame_witness :
  let w' := {| net := tt;
               trace := [EvDo (GET "https://data.iana.org/rdap/dns.json");
                         EvMatch MDomain otherVersion (IdString "example.org")] |} in
  @query rdapServer (NewClient "cache") dns (IdString "example.org")
    "the caller's object" (start tt)
  = (Return (Some (Errorf "no matches for example.org"), "the caller's object"), w')
  /\ ("the caller's object" : @Object rdapServer) = "the caller's object".
Proof.
  split; [reflexivity|].
  apply (@failed_resolution_frame rdapServer (NewClient "cache") dns
           (IdString "example.org") "the caller's object" (start tt)
           (Errorf "no matches for example.org") "the caller's object"
           {| net := tt;
              trace := [EvDo (GET "https://data.iana.org/rdap/dns.json");
                        EvMatch MDomain otherVersion (IdString "example.org")] |}).
  - reflexivity.
  - discriminate.
Defined.

End ClientMore.

(** ** More on the URI sort *)

Module BootstrapMore.
Import GoLib Bootstrap.

(** The first piece of [strings.Split(s, ":")] and what follows it. *)
Lemma strings_Split_head (s : string) :
  exists w ws,
    strings_Split s ":"%char = w :: ws
    /\ (s = w \/ exists rest, s = w +:+ ":" +:+ rest).
Proof.
  induction s as [|c s IH]; simpl.
  - exists EmptyString, []. auto.
  - destruct (Ascii.eqb c ":"%char) eqn:Hc.
    + apply Ascii.eqb_eq in Hc. subst c.
      exists EmptyString, (strings_Split s ":"%char). split; [reflexivity|].
      right. now exists s.
    + destruct IH as (w & ws & -> & Hs).
      exists (String c w), ws. split; [reflexivity|].
      destruct Hs as [->|[rest ->]]; [now left|]. right. now exists rest.
Qed.

(** X11.  [Values.Less] takes a URI for an encrypted one exactly when it is
    the text [https] or starts with [https:], in lower case: what follows
    the first colon is not looked at, and no other spelling of the scheme
    counts. *)
Theorem isHTTPS_iff (u : string) :
  isHTTPS u = true <-> u = "https" \/ exists rest, u = "https:" +:+ rest.
Proof.
  unfold isHTTPS. split.
  - destruct (strings_Split_head u) as (w & ws & -> & Hu).
    intros Hw. apply String.eqb_eq in Hw. subst w.
    destruct Hu as [->|[rest ->]]; [now left | right; now exists rest].
  - intros [->|[rest ->]]; [reflexivity|]. simpl.
    reflexivity.
Qed.

Lemma filter_https_others (v : Values) :
  List.filter isHTTPS (List.filter other v) = [].
Proof.
  induction v as [|x v IH]; simpl; [reflexivity|]. unfold other at 1.
  destruct (isHTTPS x) eqn:Hx; simpl; [exact IH|]. now rewrite Hx.
Qed.

Lemma filter_https_idem (v : Values) :
  List.filter isHTTPS (List.filter isHTTPS v) = List.filter isHTTPS v.
Proof.
  induction v as [|x v IH]; simpl; [reflexivity|].
  destruct (isHTTPS x) eqn:Hx; simpl; [|exact IH]. rewrite Hx. now f_equal.
Qed.

Lemma filter_rev {A : Type} (f : A -> bool) (l : list A) :
  List.filter f (rev l) = rev (List.filter f l).
Proof.
  induction l as [|x l IH]; simpl; [reflexivity|].
  rewrite List.filter_app, IH. simpl. destruct (f x); simpl;
    [reflexivity | now rewrite app_nil_r].
Qed.

Lemma httpsFirst_https (v : Values) :
  List.filter isHTTPS (httpsFirst v) = rev (List.filter isHTTPS v).
Proof.
  unfold httpsFirst.
  rewrite List.filter_app, filter_rev, filter_https_idem, filter_https_others.
  now rewrite app_nil_r.
Qed.

(** X12.  On a list of at most [insertionSortOnly] URIs [sort.Sort] with
    this [Less] never panics and gives the [https] URIs in the reverse of
    their order in the list, then the other URIs in their order in the
    list. *)
Theorem sort_Sort_reverses_https (sort_long : Values -> option Values)
    (v : Values) :
  length v <= insertionSortOnly ->
  sort_Sort sort_long v
  = Some (rev (List.filter isHTTPS v) ++ List.filter other v).
Proof. intros Hn. now rewrite (BootstrapFacts.sort_Sort_short sort_long v Hn). Qed.

(** X13.  Sorting such a list twice, the second [sort.Sort] applied to the
    result of the first, gives the stable order: the [https] URIs in their
    order in the list, then the others in theirs. *)
Theorem sort_Sort_twice (sort_long : Values -> option Values) (v : Values) :
  length v <= insertionSortOnly ->
  sort_Sort sort_long v ≫= sort_Sort sort_long
  = Some (List.filter isHTTPS v ++ List.filter other v).
Proof.
  intros Hn. rewrite (BootstrapFacts.sort_Sort_short sort_long v Hn). simpl.
  rewrite BootstrapFacts.sort_Sort_short
    by (now rewrite BootstrapFacts.httpsFirst_length).
  unfold httpsFirst at 1.
  now rewrite httpsFirst_https, rev_involutive, BootstrapFacts.httpsFirst_others.
Qed.

(** X19.  [Values.Swap] with both indices in range does not panic,
    exchanges the two elements and leaves every other one and the length as
    they were; the same call again gives the list back. *)
Theorem Values_Swap_round_trip (v : Values) (i j : nat) :
  i < length v -> j < length v ->
  exists v',
    Values_Swap v i j = Some v'
    /\ length v' = length v
    /\ v' !! i = v !! j
    /\ v' !! j = v !! i
    /\ (forall k, k <> i -> k <> j -> v' !! k = v !! k)
    /\ Values_Swap v' i j = Some v.
Proof.
  intros Hi Hj.
  destruct (lookup_lt_is_Some_2 v i Hi) as [x Hx].
  destruct (lookup_lt_is_Some_2 v j Hj) as [y Hy].
  exists (<[j:=x]> (<[i:=y]> v)).
  assert (Hvj : <[j:=x]> (<[i:=y]> v) !! j = Some x).
  { apply list_lookup_insert_eq. now rewrite length_insert. }
  assert (Hvi : <[j:=x]> (<[i:=y]> v) !! i = Some y).
  { destruct (decide (j = i)) as [->|Hne].
    - rewrite Hvj. congruence.
    - rewrite list_lookup_insert_ne by exact Hne.
      now apply list_lookup_insert_eq. }
  assert (Hvk : forall k, k <> i -> k <> j ->
            <[j:=x]> (<[i:=y]> v) !! k = v !! k).
  { intros k Hki Hkj. now rewrite !list_lookup_insert_ne by congruence. }
  split; [unfold Values_Swap; rewrite Hx; simpl; now rewrite Hy|].
  split; [now rewrite !length_insert|].
  split; [now rewrite Hvi, Hy|].
  split; [now rewrite Hvj, Hx|].
  split; [exact Hvk|].
  unfold Values_Swap. rewrite Hvi. simpl. rewrite Hvj. simpl. f_equal.
  apply list_eq. intros k.
  destruct (decide (j = k)) as [<-|Hjk].
  - rewrite list_lookup_insert_eq by (now rewrite !length_insert).
    now rewrite Hy.
  - rewrite list_lookup_insert_ne by exact Hjk.
    destruct (decide (i = k)) as [<-|Hik].
    + rewrite list_lookup_insert_eq by (now rewrite !length_insert).
      now rewrite Hx.
    + rewrite list_lookup_insert_ne by exact Hik.
      apply Hvk; congruence.
Qed.

(** The theorem X12 on four URIs. *)
Lemma sort_Sort_reverses_https_witness :
  sort_Sort (fun v => Some v)
    ["http://a.example"; "https://b.example"; "ftp://c.example"; "https://d.example"]
  = Some (rev (List.filter isHTTPS
                 ["http://a.example"; "https://b.example";
                  "ftp://c.example"; "https://d.example"])
          ++ List.filter other
               ["http://a.example"; "https://b.example";
                "ftp://c.example"; "https://d.example"]).
Proof.
  apply (sort_Sort_reverses_https (fun v => Some v)).
  unfold insertionSortOnly. simpl. lia.
Defined.

(** The theorem X13 on the same URIs. *)
Lemma sort_Sort_twice_witness :
  sort_Sort (fun v => Some v)
    ["http://a.example"; "https://b.example"; "ftp://c.example"; "https://d.example"]
  ≫= sort_Sort (fun v => Some v)
  = Some (List.filter isHTTPS
            ["http://a.example"; "https://b.example";
             "ftp://c.example"; "https://d.example"]
          ++ List.filter other
               ["http://a.example"; "https://b.example";
                "ftp://c.example"; "https://d.example"]).
Proof.
  apply (sort_Sort_twice (fun v => Some v)).
  unfold insertionSortOnly. simpl. lia.
Defined.

(** The theorem X19 on the first and the last of three URIs. *)
Lemma Values_Swap_round_trip_witness :
  exists v',
    Values_Swap ["http://a.example"; "https://b.example"; "ftp://c.example"] 0 2
    = Some v'
    /\ length v' = 3
    /\ v' !! 0 = Some "ftp://c.example"
    /\ v' !! 2 = Some "http://a.example"
    /\ (forall k, k <> 0 -> k <> 2 ->
        v' !! k = ["http://a.example"; "https://b.example"; "ftp://c.example"] !! k)
    /\ Values_Swap v' 0 2
       = Some ["http://a.example"; "https://b.example"; "ftp://c.example"].
Proof.
  apply (Values_Swap_round_trip
           ["http://a.example"; "https://b.example"; "ftp://c.example"] 0 2);
    simpl; lia.
Defined.

End BootstrapMore.

(** ** The pattern [isFQDN] and the domain handler *)

Module FQDNFacts.
Import GoLib FQDN.

(** *** Matching by derivatives is matching *)

Lemma eps_inv (s : list ascii) : matches Eps s -> s = [].
Proof. intros Hm. now inversion Hm. Qed.

Lemma class_length (p : ascii -> bool) (s : list ascii) :
  matches (Class p) s -> exists c, s = [c] /\ p c = true.
Proof. intros Hm. inversion Hm; subst. eauto. Qed.

Lemma seq_inv (r1 r2 : regex) (s : list ascii) :
  matches (Seq r1 r2) s ->
  exists s1 s2, s = s1 ++ s2 /\ matches r1 s1 /\ matches r2 s2.
Proof. intros Hm. inversion Hm; subst. eauto. Qed.

Lemma alt_inv (r1 r2 : regex) (s : list ascii) :
  matches (Alt r1 r2) s -> matches r1 s \/ matches r2 s.
Proof. intros Hm. inversion Hm; subst; auto. Qed.

Lemma nullable_spec (r : regex) : nullable r = true <-> matches r [].
Proof.
  induction r as [| |p|r1 IH1 r2 IH2|r1 IH1 r2 IH2|r IH]; simpl.
  - split; [discriminate | intros Hm; inversion Hm].
  - split; [constructor | reflexivity].
  - split; [discriminate | intros Hm; inversion Hm].
  - rewrite andb_true_iff, IH1, IH2. split.
    + intros [H1 H2]. exact (MSeq r1 r2 [] [] H1 H2).
    + intros Hm. apply seq_inv in Hm. destruct Hm as (s1 & s2 & Heq & H1 & H2).
      symmetry in Heq. apply app_eq_nil in Heq. destruct Heq as [-> ->].
      now split.
  - rewrite orb_true_iff, IH1, IH2. split.
    + intros [H1|H2]; [now apply MAltL | now apply MAltR].
    + apply alt_inv.
  - split; [constructor | reflexivity].
Qed.

(** A non-empty match of [r*] starts with a non-empty match of [r]. *)
Lemma star_cons (r : regex) (c : ascii) (s : list ascii) :
  matches (Star r) (c :: s) ->
  exists s1 s2, s = s1 ++ s2 /\ matches r (c :: s1) /\ matches (Star r) s2.
Proof.
  intros Hm. remember (Star r) as r' eqn:Hr. remember (c :: s) as t eqn:Ht.
  revert s Ht.
  induction Hm as [| | | | | |r0 s1 s2 H1 _ H2 IH2]; try discriminate.
  injection Hr as ->. intros s Ht.
  destruct s1 as [|c1 s1].
  - simpl in Ht. exact (IH2 eq_refl s Ht).
  - injection Ht as -> <-. now exists s1, s2.
Qed.

Lemma deriv_spec (c : ascii) (r : regex) (s : list ascii) :
  matches (deriv c r) s <-> matches r (c :: s).
Proof.
  revert s.
  induction r as [| |p|r1 IH1 r2 IH2|r1 IH1 r2 IH2|r IH]; intros s; simpl.
  - split; intros Hm; inversion Hm.
  - split; intros Hm; inversion Hm.
  - destruct (p c) eqn:Hp; split; intros Hm; inversion Hm; subst.
    + now constructor.
    + constructor.
    + congruence.
  - assert (Hseq : matches (Seq (deriv c r1) r2) s ->
                   matches (Seq r1 r2) (c :: s)).
    { intros Hm. apply seq_inv in Hm. destruct Hm as (s1 & s2 & -> & H1 & H2).
      apply IH1 in H1. exact (MSeq r1 r2 (c :: s1) s2 H1 H2). }
    assert (Hinv : matches (Seq r1 r2) (c :: s) ->
                   matches (Seq (deriv c r1) r2) s
                   \/ (matches r1 [] /\ matches (deriv c r2) s)).
    { intros Hm. apply seq_inv in Hm. destruct Hm as (s1 & s2 & Heq & H1 & H2).
      destruct s1 as [|c1 s1].
      - simpl in Heq. subst s2. right. split; [exact H1 | now apply IH2].
      - injection Heq as <- ->. left. constructor; [now apply IH1 | exact H2]. }
    destruct (nullable r1) eqn:Hn.
    + split.
      * intros Hm. apply alt_inv in Hm. destruct Hm as [Hl|Hd];
          [now apply Hseq|].
        apply nullable_spec in Hn. apply IH2 in Hd.
        exact (MSeq r1 r2 [] (c :: s) Hn Hd).
      * intros Hm. destruct (Hinv Hm) as [Hl|[_ Hr]];
          [now apply MAltL | now apply MAltR].
    + split; [exact Hseq|].
      intros Hm. destruct (Hinv Hm) as [Hl|[Hnull _]]; [exact Hl|].
      apply nullable_spec in Hnull. congruence.
  - split; intros Hm; apply alt_inv in Hm; destruct Hm as [Hl|Hr].
    + apply MAltL. now apply IH1.
    + apply MAltR. now apply IH2.
    + apply MAltL. now apply IH1.
    + apply MAltR. now apply IH2.
  - split.
    + intros Hm. apply seq_inv in Hm. destruct Hm as (s1 & s2 & -> & H1 & H2).
      apply IH in H1. exact (MStarS r (c :: s1) s2 H1 H2).
    + intros Hm. destruct (star_cons r c s Hm) as (s1 & s2 & -> & H1 & H2).
      constructor; [now apply IH | exact H2].
Qed.

Lemma matchList_spec (r : regex) (s : list ascii) :
  matchList r s = true <-> matches r s.
Proof.
  revert r. induction s as [|c s IH]; intros r; simpl.
  - apply nullable_spec.
  - rewrite IH. apply deriv_spec.
Qed.

(** *** The texts the pattern matches *)

Lemma matches_within (P : ascii -> bool) (r : regex) (s : list ascii) :
  classesWithin P r -> matches r s -> Forall (fun c => P c = true) s.
Proof.
  intros Hc Hm. induction Hm; simpl in Hc.
  - constructor.
  - constructor; [now apply Hc | constructor].
  - apply Forall_app. destruct Hc. split; auto.
  - destruct Hc. auto.
  - destruct Hc. auto.
  - constructor.
  - apply Forall_app. split; auto.
Qed.

Lemma upto_within (P : ascii -> bool) (n : nat) (r : regex) :
  classesWithin P r -> classesWithin P (upto n r).
Proof. intros Hr. induction n; simpl; auto. Qed.

Lemma alnum_ldh (c : ascii) : alnum c = true -> ldh c = true.
Proof. unfold ldh. now intros ->. Qed.

Lemma hyphen_ldh (c : ascii) : Ascii.eqb "-" c = true -> ldh c = true.
Proof. unfold ldh. intros ->. now rewrite orb_true_r. Qed.

Lemma dot_ldh (c : ascii) : Ascii.eqb "." c = true -> ldh c = true.
Proof. unfold ldh. intros ->. now rewrite orb_true_r. Qed.

Lemma pattern_within : classesWithin ldh pattern.
Proof.
  assert (Hin : classesWithin ldh (upto 61 (Alt (Class alnum) hyphen))).
  { apply upto_within. split; [exact alnum_ldh | exact hyphen_ldh]. }
  assert (Hl : classesWithin ldh label).
  { unfold label, Opt. cbn [classesWithin].
    split; [exact alnum_ldh|]. split; [|exact I].
    split; [exact Hin | exact alnum_ldh]. }
  unfold pattern, labels, Opt, dot. cbn [classesWithin].
  split; [split; [|exact I] | split; [exact dot_ldh | exact I]].
  split; [|exact Hl]. split; [exact Hl | exact dot_ldh].
Qed.

(** The pattern matches letters, digits, hyphens and dots only. *)
Lemma isFQDN_ldh (s : string) :
  isFQDN s = true -> Forall (fun c => ldh c = true) (list_ascii_of_string s).
Proof.
  unfold isFQDN, MatchString. rewrite matchList_spec.
  apply matches_within, pattern_within.
Qed.

Lemma upto_length (n : nat) (r : regex) (s : list ascii) :
  (forall t, matches r t -> length t <= 1) ->
  matches (upto n r) s -> length s <= n.
Proof.
  intros Hr. revert s. induction n as [|n IH]; intros s Hm; simpl in Hm.
  - apply eps_inv in Hm. subst. simpl. lia.
  - apply alt_inv in Hm. destruct Hm as [Hl|Hl].
    + apply seq_inv in Hl. destruct Hl as (s1 & s2 & -> & H1 & H2).
      rewrite length_app. specialize (Hr s1 H1). specialize (IH s2 H2). lia.
    + apply eps_inv in Hl. subst. simpl. lia.
Qed.

Lemma upto_complete (n : nat) (r : regex) (s : list ascii) :
  Forall (fun c => matches r [c]) s -> length s <= n -> matches (upto n r) s.
Proof.
  revert s. induction n as [|n IH]; intros s Hall Hn.
  - destruct s; [constructor | simpl in Hn; lia].
  - simpl. destruct s as [|c s]; [apply MAltR; constructor|].
    apply MAltL. inversion Hall; subst.
    apply (MSeq r (upto n r) [c] s); [assumption|].
    apply IH; [assumption | simpl in Hn; lia].
Qed.

Lemma inner_length (t : list ascii) :
  matches (Alt (Class alnum) hyphen) t -> length t <= 1.
Proof.
  intros Hm. apply alt_inv in Hm. destruct Hm as [Hl|Hl];
    apply class_length in Hl; destruct Hl as (c & -> & _); simpl; lia.
Qed.

(** A label has 1 to 63 bytes and ends with a letter or digit. *)
Lemma label_shape (s : list ascii) :
  matches label s ->
  1 <= length s <= 63 /\ exists t c, s = t ++ [c] /\ alnum c = true.
Proof.
  unfold label. intros Hm.
  apply seq_inv in Hm. destruct Hm as (s1 & s2 & -> & H1 & H2).
  apply class_length in H1. destruct H1 as (c1 & -> & Hc1).
  apply alt_inv in H2. destruct H2 as [Hl|Hl].
  - apply seq_inv in Hl. destruct Hl as (t1 & t2 & -> & Ht1 & Ht2).
    apply class_length in Ht2. destruct Ht2 as (c2 & -> & Hc2).
    pose proof (upto_length 61 _ t1 inner_length Ht1) as Hlen.
    split.
    + simpl. rewrite length_app. simpl. lia.
    + exists (c1 :: t1), c2. split; [reflexivity | exact Hc2].
  - apply eps_inv in Hl. subst. split; [simpl; lia|].
    exists [], c1. split; [reflexivity | exact Hc1].
Qed.

(** A text of 1 to 63 letters and digits is a label. *)
Lemma label_complete (s : list ascii) :
  Forall (fun c => alnum c = true) s -> 1 <= length s <= 63 ->
  matches label s.
Proof.
  intros Hall Hn. destruct s as [|c s]; [simpl in Hn; lia|].
  inversion Hall as [|? ? Hc Hs]; subst. unfold label.
  apply (MSeq (Class alnum) _ [c] s); [now constructor|].
  destruct s as [|c' s'] using rev_ind; [apply MAltR; constructor|].
  clear IHs'. apply MAltL. apply Forall_app in Hs. destruct Hs as [Hmid Hlast].
  inversion Hlast; subst.
  apply (MSeq _ (Class alnum) s' [c']); [|now constructor].
  apply upto_complete.
  - eapply Forall_impl; [exact Hmid|]. simpl. intros a Ha.
    apply MAltL. now constructor.
  - simpl in Hn. rewrite length_app in Hn. simpl in Hn. lia.
Qed.

Lemma alnum_not_dot (c : ascii) : alnum c = true -> c <> "."%char.
Proof. intros Ha ->. discriminate. Qed.

(** A non-empty match of [(label\.)*] holds a dot. *)
Lemma dotted_has_dot (s : list ascii) :
  matches (Star (Seq label dot)) s -> s = [] \/ "."%char ∈ s.
Proof.
  intros Hm. remember (Star (Seq label dot)) as r eqn:Hr.
  induction Hm as [| | | | | |r0 s1 s2 H1 _ _ _]; try discriminate;
    [now left|].
  injection Hr as ->. right.
  apply seq_inv in H1. destruct H1 as (t1 & t2 & -> & _ & Ht2).
  apply class_length in Ht2. destruct Ht2 as (c & -> & Hc).
  apply Ascii.eqb_eq in Hc. subst c.
  rewrite !elem_of_app. left. right. now left.
Qed.

Lemma opt_dot (s : list ascii) :
  matches (Opt dot) s <-> s = [] \/ s = ["."%char].
Proof.
  unfold Opt, dot. split.
  - intros Hm. apply alt_inv in Hm. destruct Hm as [Hl|Hl].
    + apply class_length in Hl. destruct Hl as (c & -> & Hc).
      apply Ascii.eqb_eq in Hc. subst c. now right.
    + apply eps_inv in Hl. now left.
  - intros [->| ->]; [apply MAltR; constructor|].
    apply MAltL. now constructor.
Qed.

(** What [labels] matches ends with a letter or digit. *)
Lemma labels_last (s : list ascii) :
  matches labels s -> exists t c, s = t ++ [c] /\ alnum c = true.
Proof.
  unfold labels. intros Hm.
  apply seq_inv in Hm. destruct Hm as (s1 & s2 & -> & _ & H2).
  destruct (label_shape s2 H2) as (_ & t & c & -> & Hc).
  exists (s1 ++ t), c. now rewrite <- app_assoc.
Qed.

(** The pattern on a text without dots: a label or nothing. *)
Lemma pattern_undotted (s : list ascii) :
  "."%char ∉ s -> matches pattern s -> s = [] \/ matches label s.
Proof.
  unfold pattern. intros Hnd Hm.
  apply seq_inv in Hm. destruct Hm as (s1 & s2 & -> & H1 & H2).
  apply opt_dot in H2. destruct H2 as [->| ->].
  2:{ elim Hnd. rewrite elem_of_app. right. now left. }
  rewrite app_nil_r in *.
  apply alt_inv in H1. destruct H1 as [Hl|Hl].
  - right. unfold labels in Hl.
    apply seq_inv in Hl. destruct Hl as (t1 & t2 & -> & Ht1 & Ht2).
    destruct (dotted_has_dot t1 Ht1) as [->|Hin]; [exact Ht2|].
    elim Hnd. rewrite elem_of_app. now left.
  - apply eps_inv in Hl. now left.
Qed.

Lemma alnum_undotted (s : list ascii) :
  Forall (fun c => alnum c = true) s -> "."%char ∉ s.
Proof.
  intros Hall Hin. rewrite Forall_forall in Hall.
  specialize (Hall _ Hin). discriminate.
Qed.

Lemma length_list_ascii (s : string) :
  length (list_ascii_of_string s) = String.length s.
Proof. induction s as [|c s IH]; simpl; [reflexivity | now f_equal]. Qed.

(** A text of letters and digits that the pattern matches has at most 63
    bytes, and every such text is matched. *)
Lemma pattern_alnum_bound (l : list ascii) :
  Forall (fun c => alnum c = true) l -> matches pattern l -> length l <= 63.
Proof.
  intros Hall Hm.
  destruct (pattern_undotted l (alnum_undotted l Hall) Hm) as [->|Hl];
    [simpl; lia|].
  apply label_shape in Hl. lia.
Qed.

Lemma pattern_alnum_complete (l : list ascii) :
  Forall (fun c => alnum c = true) l -> length l <= 63 -> matches pattern l.
Proof.
  intros Hall Hn. unfold pattern. rewrite <- (app_nil_r l).
  apply MSeq; [|apply MAltR; constructor].
  destruct l as [|c l']; [apply MAltR; constructor|].
  apply MAltL. unfold labels.
  apply (MSeq _ label [] (c :: l')); [constructor|].
  apply label_complete; [exact Hall | simpl in *; lia].
Qed.

(** X14.  A text of letters and digits alone passes [isFQDN] exactly when
    it has at most 63 bytes: the empty text passes, and one label is bound
    by the pattern to 63 bytes. *)
Theorem isFQDN_single_label (s : string) :
  Forall (fun c => alnum c = true) (list_ascii_of_string s) ->
  (isFQDN s = true <-> String.length s <= 63).
Proof.
  intros Hall. unfold isFQDN, MatchString. rewrite matchList_spec.
  rewrite <- (length_list_ascii s). split.
  - now apply pattern_alnum_bound.
  - now apply pattern_alnum_complete.
Qed.

Lemma append_cons (c : ascii) (s t : string) :
  String c s +:+ t = String c (s +:+ t).
Proof. reflexivity. Qed.

Lemma list_ascii_app (s t : string) :
  list_ascii_of_string (s +:+ t) = list_ascii_of_string s ++ list_ascii_of_string t.
Proof.
  induction s as [|c s IH]; [reflexivity|].
  rewrite append_cons. simpl. now f_equal.
Qed.

Lemma string_of_list_snoc (t : list ascii) (c : ascii) :
  string_of_list_ascii (t ++ [c]) = string_of_list_ascii t +:+ String c EmptyString.
Proof.
  induction t as [|a t IH]; [reflexivity|].
  simpl. rewrite append_cons. now f_equal.
Qed.

(** X15.  A final dot is optional: for a text that does not end with a dot,
    the text and the text with a dot after it pass [isFQDN] alike. *)
Theorem isFQDN_trailing_dot (s : string) :
  (forall t, s <> t +:+ ".") ->
  isFQDN (s +:+ ".") = isFQDN s.
Proof.
  intros Hs. unfold isFQDN, MatchString. rewrite list_ascii_app. simpl.
  set (l := list_ascii_of_string s).
  assert (Hl : forall t, l <> t ++ ["."%char]).
  { intros t Ht. apply (Hs (string_of_list_ascii t)).
    rewrite <- (string_of_list_ascii_of_string s). fold l. rewrite Ht.
    apply string_of_list_snoc. }
  apply Bool.eq_iff_eq_true. rewrite !matchList_spec. unfold pattern. split.
  - intros Hm. apply seq_inv in Hm. destruct Hm as (s1 & s2 & Heq & H1 & H2).
    apply opt_dot in H2. destruct H2 as [->| ->].
    + rewrite app_nil_r in Heq. subst s1. exfalso.
      apply alt_inv in H1. destruct H1 as [H1|H1].
      * destruct (labels_last _ H1) as (t & c & Ht & Hc).
        apply app_inj_tail in Ht. destruct Ht as [_ <-]. discriminate.
      * apply eps_inv in H1. now destruct l.
    + apply app_inj_tail in Heq. destruct Heq as [-> _].
      rewrite <- (app_nil_r s1). apply MSeq; [exact H1|].
      apply MAltR. constructor.
  - intros Hm. apply seq_inv in Hm. destruct Hm as (s1 & s2 & Heq & H1 & H2).
    apply opt_dot in H2. destruct H2 as [->| ->].
    + rewrite app_nil_r in Heq. subst s1.
      apply MSeq; [exact H1|]. apply opt_dot. now right.
    + now elim (Hl s1).
Qed.

(** *** Run on examples *)

(** The theorem X14 on a name of one label. *)
Lemma isFQDN_single_label_witness :
  isFQDN "localhost" = true <-> String.length "localhost" <= 63.
Proof.
  apply (isFQDN_single_label "localhost").
  repeat constructor.
Defined.

(** The theorem X15 on a name of two labels. *)
Lemma isFQDN_trailing_dot_witness :
  isFQDN ("example.com" +:+ ".") = isFQDN "example.com"
  /\ isFQDN "example.com" = true.
Proof.
  split; [|reflexivity].
  apply (isFQDN_trailing_dot "example.com").
  intros [|? [|? [|? [|? [|? [|? [|? [|? [|? [|? [|? [|? t]]]]]]]]]]]];
    discriminate.
Defined.

End FQDNFacts.

(** ** The domain handler under the pattern *)

Module DomainFacts.
Import GoLib Handler FQDN.

Section WithEnv.
Context `{Env}.

(** X16.  When [isFQDN] is the pattern of the source, [Handler.Domain]
    declines every object that holds a byte other than an ASCII letter, a
    digit, a hyphen or a dot, and leaves the world as it was: an address
    block, a text with a space or an underscore is never looked up as a
    domain name. *)
Theorem Domain_declines_foreign (h : Handler) (object : string) (w : World)
    (c : ascii) :
  isFQDN_MatchString object = isFQDN object ->
  c ∈ list_ascii_of_string object ->
  ldh c = false ->
  Domain h object w = (false, None, w).
Proof.
  intros Hagree Hin Hc. unfold Domain. rewrite Hagree.
  destruct (isFQDN object) eqn:Hf; [|reflexivity].
  apply FQDNFacts.isFQDN_ldh in Hf. rewrite Forall_forall in Hf.
  rewrite (Hf c Hin) in Hc. discriminate.
Qed.

Lemma isDigit_alnum (c : ascii) : isDigit c = true -> alnum c = true.
Proof. unfold isDigit, alnum. now intros ->. Qed.

Lemma allDigits_alnum (s : string) :
  allDigits s = true -> Forall (fun c => alnum c = true) (list_ascii_of_string s).
Proof.
  induction s as [|c s IH]; simpl; [constructor|].
  rewrite andb_true_iff. intros [Hc Hs].
  constructor; [now apply isDigit_alnum | now apply IH].
Qed.

(** X17.  When [isFQDN] is the pattern of the source, every object of at
    most 63 bytes that [Handler.ASN] takes would be taken by
    [Handler.Domain] as well: a number is a well-formed label, and only the
    order of the handlers in [Handler.Query] keeps it from being looked up
    as a domain name. *)
Theorem numbers_pass_for_names (h : Handler) (object : string) (w : World) :
  isFQDN_MatchString object = isFQDN object ->
  (strconv_ParseUint object 32).2 = None ->
  String.length object <= 63 ->
  (ASN h object w).1.1 = true /\ (Domain h object w).1.1 = true.
Proof.
  intros Hagree Hp Hn. split; [now apply HandlerFacts.ASN_claims|].
  apply HandlerMore.Domain_claims. rewrite Hagree.
  apply (proj1 (GoLibFacts.strconv_ParseUint_32 object)) in Hp.
  destruct Hp as (_ & Hd & _).
  unfold isFQDN, MatchString. apply FQDNFacts.matchList_spec.
  apply FQDNFacts.pattern_alnum_complete; [now apply allDigits_alnum|].
  now rewrite FQDNFacts.length_list_ascii.
Qed.

End WithEnv.

(** *** Run on the test double *)

Import Doubles MoreDoubles.

(** The theorem X16 on an address block: the slash is foreign to names. *)
Lemma Domain_declines_foreign_witness :
  @Domain cannedFQDN handlerFQDN "192.0.2.0/24" idleFQDN = (false, None, idleFQDN).
Proof.
  apply (@Domain_declines_foreign cannedFQDN handlerFQDN "192.0.2.0/24"
           idleFQDN "/"%char).
  - reflexivity.
  - simpl. do 9 apply list_elem_of_further. apply list_elem_of_here.
  - reflexivity.
Defined.

(** The theorem X17 on [1234]. *)
Lemma numbers_pass_for_names_witness :
  (@ASN cannedFQDN handlerFQDN "1234" idleFQDN).1.1 = true
  /\ (@Domain cannedFQDN handlerFQDN "1234" idleFQDN).1.1 = true.
Proof.
  apply (@numbers_pass_for_names cannedFQDN handlerFQDN "1234" idleFQDN).
  - reflexivity.
  - reflexivity.
  - simpl. lia.
Defined.

End DomainFacts.
